(** * api-santo-do-dia: a shallow embedding of [index.py]

    The service scrapes the "saint of the day" pages of a fixed origin site,
    turns each page into a record and serves the records through two Flask
    routes backed by a date-keyed cache and a daily refresh job.

    The embedding follows the Python source function by function and keeps
    its (Portuguese) names.  External libraries are modelled by what the
    source observes of them:
    - a parsed page ([BeautifulSoup]) is the record [Soup] of the four
      look-ups the source performs on it;
    - [requests], [hashlib.md5] and the HTML parser are parameters of the
      model;
    - [flask_caching]'s store is a finite map from keys to values with an
      expiry time, [functools.lru_cache] a recency-ordered association list;
    - Python exceptions are values of an error monad over the global state. *)

From Stdlib Require Import ZArith Lia Ascii String List.
From stdpp Require Import base option list strings gmap pretty sorting.

Local Open Scope string_scope.
Local Open Scope Z_scope.

(** ** Python strings

    A string is the sequence of its code points; the model keeps the code
    points below 256. *)

Module PyStr.

(** [str.isspace] on the code points below 256. *)
Definition isspace (c : ascii) : bool :=
  let n := nat_of_ascii c in
  ((9 <=? n) && (n <=? 13) || (28 <=? n) && (n <=? 32)
   || (n =? 133) || (n =? 160))%nat.

Fixpoint lstrip (s : string) : string :=
  match s with
  | String c s' => if isspace c then lstrip s' else s
  | EmptyString => EmptyString
  end.

Fixpoint rstrip (s : string) : string :=
  match s with
  | String c s' =>
      match rstrip s' with
      | EmptyString => if isspace c then EmptyString else String c EmptyString
      | r => String c r
      end
  | EmptyString => EmptyString
  end.

(** [s.strip()] *)
Definition strip (s : string) : string := rstrip (lstrip s).

(** Truth value of a string: [bool(s)]. *)
Definition truthy (s : string) : bool :=
  match s with EmptyString => false | String _ _ => true end.

(** [sep.join(l)] *)
Fixpoint join (sep : string) (l : list string) : string :=
  match l with
  | [] => ""
  | [s] => s
  | s :: l' => s +:+ sep +:+ join sep l'
  end.

Definition LF : ascii := ascii_of_nat 10.

(** The separator ["\n\n"] of the three text sections. *)
Definition blank_line : string := String LF (String LF EmptyString).

End PyStr.

(** ** Python list slices *)

Module PySlice.

(** Normalisation of one slice bound against a list of length [n]:
    a negative bound counts from the end, and the result is clamped to
    [0..n]; an omitted bound takes the given default. *)
Definition bound (n : Z) (i : option Z) (dflt : Z) : Z :=
  match i with
  | None => dflt
  | Some i => if i <? 0 then Z.max (i + n) 0 else Z.min i n
  end.

(** [l[start:stop]] *)
Definition slice {A} (start stop : option Z) (l : list A) : list A :=
  let n := Z.of_nat (length l) in
  let a := bound n start 0 in
  let b := bound n stop n in
  take (Z.to_nat (b - a)) (drop (Z.to_nat a) l).

End PySlice.

(** ** Pages and records *)

(** What [soup.find("div", class_="feature").find(class_="feature__portrait")]
    and the following ["src"] look-up can observe. *)
Inductive Retrato :=
| SemFeature                    (* no [div.feature]: [.find] on [None] raises *)
| SemRetrato                    (* [div.feature] without a portrait element   *)
| RetratoSemSrc                 (* portrait element without a [src] attribute *)
| RetratoSrc (src : string).

(** A parsed page, as far as [index.py] looks at it. *)
Record Soup := {
  feature_name : option string;        (* [.text] of [div.feature__name]        *)
  wg_text      : option (list string); (* [.text] of each [p] in [div.wg-text]  *)
  feature      : Retrato;
  saints_list  : option (list string)  (* [href] of each [a[href]] in
                                          [div.saints-list]                      *)
}.

(** The dictionary built by [extrair_info_santo]. *)
Record Santo := {
  nome     : string;
  imagem   : option string;
  historia : string;
  reflexao : string;
  oracao   : string
}.

Definition origem : string := "https://www.a12.com".

(** [elemento_imagem] and the conditional expression on it; [None] stands for
    the exception the look-up raises. *)
Definition imagem_de (r : Retrato) : option (option string) :=
  match r with
  | SemFeature => None
  | SemRetrato => Some None
  | RetratoSemSrc => None
  | RetratoSrc src => Some (Some (origem +:+ src))
  end.

(** The generator [p.text.strip() for p in ps if p.text.strip()] joined with
    a blank line. *)
Definition secao (ps : list string) : string :=
  PyStr.join PyStr.blank_line (List.filter PyStr.truthy (map PyStr.strip ps)).

(** [extrair_info_santo]: every exception inside the [try] is turned into
    [None]. *)
Definition extrair_info_santo (soup : Soup) : option Santo :=
  nome_santo ← PyStr.strip <$> feature_name soup;
  infos_santo ← wg_text soup;
  imagem ← imagem_de (feature soup);
  Some {| nome := nome_santo;
          imagem := imagem;
          historia := secao (PySlice.slice None (Some (-4)) infos_santo);
          reflexao := secao (PySlice.slice (Some (-3)) (Some (-2)) infos_santo);
          oracao := secao (PySlice.slice (Some (-1)) None infos_santo) |}.

(** ** Exceptions, the process state and the monad of effects *)

Inductive Excecao :=
| RequestException (msg : string)  (* [requests]: transport, timeout, status *)
| UnboundLocalError (var : string) (* a local variable read before assignment *)
| OutraExcecao (msg : string).

(** [str(e)] *)
Definition str_exc (e : Excecao) : string :=
  match e with
  | RequestException msg => msg
  | UnboundLocalError var =>
      "cannot access local variable '" +:+ var
        +:+ "' where it is not associated with a value"
  | OutraExcecao msg => msg
  end.

Inductive Resultado (A : Type) :=
| Ok (a : A)
| Raise (e : Excecao).
Arguments Ok {A} a.
Arguments Raise {A} e.

(** What the routes compute, store and serialise: a list whose items are
    records or [None]. *)
Abbreviation Valor := (list (option Santo)).

(** The module-level objects of [index.py] that change while it runs,
    with two ghost logs of the calls made to the page fetcher. *)
Record Estado := {
  memo     : list (string * string);  (* [lru_cache] of [buscar_url]: url to
                                         body, most recently used first       *)
  cache    : gmap string (Z * Valor); (* [cache]: key to (expiry, value)      *)
  chamadas : list string;             (* every call [buscar_url(url)], oldest
                                         first                                *)
  pedidos  : list string              (* every [sessao.get(url)], oldest first *)
}.

Definition estado_inicial : Estado :=
  {| memo := []; cache := ∅; chamadas := []; pedidos := [] |}.

Definition com_memo (m : list (string * string)) (st : Estado) : Estado :=
  {| memo := m; cache := cache st; chamadas := chamadas st; pedidos := pedidos st |}.
Definition com_cache (c : gmap string (Z * Valor)) (st : Estado) : Estado :=
  {| memo := memo st; cache := c; chamadas := chamadas st; pedidos := pedidos st |}.
Definition com_chamada (url : string) (st : Estado) : Estado :=
  {| memo := memo st; cache := cache st;
     chamadas := (chamadas st ++ [url])%list; pedidos := pedidos st |}.
Definition com_pedido (url : string) (st : Estado) : Estado :=
  {| memo := memo st; cache := cache st;
     chamadas := chamadas st; pedidos := (pedidos st ++ [url])%list |}.

(** A computation reads and changes the state and either returns or raises;
    the state changes made before an exception is raised are kept. *)
Definition M (A : Type) : Type := Estado → Resultado A * Estado.

#[global] Instance M_ret : MRet M := λ A a st, (Ok a, st).
#[global] Instance M_bind : MBind M := λ A B f m st,
  match m st with
  | (Ok a, st') => f a st'
  | (Raise e, st') => (Raise e, st')
  end.

Definition raise {A} (e : Excecao) : M A := λ st, (Raise e, st).

(** [try: m except Exception as e: h e] *)
Definition tentar {A} (m : M A) (h : Excecao → M A) : M A := λ st,
  match m st with
  | (Ok a, st') => (Ok a, st')
  | (Raise e, st') => h e st'
  end.

(** ** Calendar dates and the remaining string helpers *)

Record Data := { year : Z; month : Z; day : Z }.

(** [s.zfill(w)] for a string of digits. *)
Definition zfill (w : nat) (s : string) : string :=
  string_of_list_ascii (replicate (w - String.length s) "0"%char) +:+ s.

(** [d.strftime("%Y-%m-%d")] *)
Definition strftime (d : Data) : string :=
  zfill 4 (pretty (year d)) +:+ "-" +:+ zfill 2 (pretty (month d))
    +:+ "-" +:+ zfill 2 (pretty (day d)).

(** [sub in s] *)
Fixpoint contem (sub s : string) : bool :=
  String.prefix sub s ||
  match s with
  | EmptyString => false
  | String _ s' => contem sub s'
  end.

(** A positional or keyword argument of [criar_chave_cache]. *)
Inductive Arg :=
| AStr (s : string)
| AInt (n : Z).

(** [str(arg)] *)
Definition str (a : Arg) : string :=
  match a with
  | AStr s => s
  | AInt n => pretty n
  end.

Fixpoint inserir (kv : string * Arg) (l : list (string * Arg)) : list (string * Arg) :=
  match l with
  | [] => [kv]
  | kv' :: l' => if String.leb kv.1 kv'.1 then kv :: l else kv' :: inserir kv l'
  end.

(** [sorted(kwargs.items())]: the keys of a dictionary are distinct, so the
    order is the order of the keys. *)
Definition sorted (kwargs : list (string * Arg)) : list (string * Arg) :=
  foldr inserir [] kwargs.

(** The text that [criar_chave_cache] hashes, on calendar date [hoje]. *)
Definition string_chave (hoje : Data) (args : list Arg) (kwargs : list (string * Arg))
    : string :=
  let partes_chave :=
    (map str args
     ++ map (λ kv, kv.1 +:+ ":" +:+ str kv.2) (sorted kwargs)
     ++ [strftime hoje])%list in
  PyStr.join "_" partes_chave.

(** ** Responses *)

Inductive Corpo :=
| Resultados (v : Valor)   (* [jsonify(resultados=v)] *)
| Erro (msg : string)      (* [jsonify(erro=msg)]     *)
| Mensagem (msg : string). (* [jsonify(mensagem=msg)] *)

Record Resposta := {
  corpo : Corpo;
  status : Z;
  cache_control_public : bool;    (* [resposta.cache_control.public]      *)
  x_status_cache : option string  (* the [X-Status-Cache] header, if set  *)
}.

(** [jsonify(...)]: a fresh response without a [Cache-Control] header. *)
Definition jsonify (c : Corpo) (codigo : Z) : Resposta :=
  {| corpo := c; status := codigo;
     cache_control_public := false; x_status_cache := None |}.

(** The [after_request] hook. *)
Definition apos_requisicao (resposta : Resposta) : Resposta :=
  {| corpo := corpo resposta; status := status resposta;
     cache_control_public := cache_control_public resposta;
     x_status_cache :=
       Some (if cache_control_public resposta then "HIT" else "MISS") |}.

(** Truth value of a list, of [None] and of a dictionary with keys. *)
Definition truthy_lista {A} (l : list A) : bool :=
  match l with [] => false | _ :: _ => true end.
Definition truthy_opt {A} (truthy : A → bool) (o : option A) : bool :=
  match o with None => false | Some a => truthy a end.
Definition truthy_santo (s : Santo) : bool := true.

(** [list(filter(None, resultados))] *)
Definition filter_None (resultados : Valor) : Valor :=
  List.filter (truthy_opt truthy_santo) resultados.

(** ** The environment of a run *)

(** Everything [index.py] obtains from outside the process during one
    request or one run of the daily job.  The network and the clock are
    taken as fixed for the duration of that run. *)
Record Mundo := {
  sessao_get    : string → Resultado string; (* [sessao.get(url, timeout=10)],
                                                [raise_for_status()], [.text]  *)
  BeautifulSoup : string → Soup;             (* [BeautifulSoup(html,
                                                'html.parser')]                *)
  md5           : string → string;           (* [hashlib.md5(s.encode())
                                                .hexdigest()]                  *)
  datetime_now  : Data;                      (* [datetime.now()]               *)
  time_now      : Z                          (* [time()], in seconds           *)
}.

Definition url_inicio : string :=
  "https://www.a12.com/reze-no-santuario/santo-do-dia".

(** [f'https://www.a12.com/reze-no-santuario/santo-do-dia?day={dia}&month={mes}'] *)
Definition url_data (dia mes : Z) : string :=
  url_inicio +:+ "?day=" +:+ pretty dia +:+ "&month=" +:+ pretty mes.

Definition maxsize : nat := 128.
Definition max_workers : nat := 5.
Definition CACHE_DEFAULT_TIMEOUT : Z := 86400.

(** *** [functools.lru_cache] *)

Fixpoint memo_get (url : string) (m : list (string * string)) : option string :=
  match m with
  | [] => None
  | (u, corpo) :: m' => if decide (u = url) then Some corpo else memo_get url m'
  end.

Definition memo_sem (url : string) (m : list (string * string)) : list (string * string) :=
  List.filter (λ kv, negb (bool_decide (kv.1 = url))) m.

(** A hit moves the entry to the most recent position. *)
Definition memo_hit (url corpo : string) (m : list (string * string)) :=
  (url, corpo) :: memo_sem url m.

(** A returned value is stored as most recent; beyond [maxsize] entries the
    least recently used ones are dropped. *)
Definition memo_put (url corpo : string) (m : list (string * string)) :=
  take maxsize ((url, corpo) :: memo_sem url m).

Section Programa.

Variable w : Mundo.

(** *** [criar_chave_cache] *)

Definition criar_chave_cache (args : list Arg) (kwargs : list (string * Arg)) : string :=
  md5 w (string_chave (datetime_now w) args kwargs).

(** *** [buscar_url]
    Decorated with [lru_cache(maxsize=128)]: a memo hit returns the stored
    body without entering the function; the function re-raises what
    [sessao.get] or [raise_for_status] raised, and nothing is stored then. *)
Definition buscar_url (url : string) : M string := λ st,
  let st := com_chamada url st in
  match memo_get url (memo st) with
  | Some corpo => (Ok corpo, com_memo (memo_hit url corpo (memo st)) st)
  | None =>
      let st := com_pedido url st in
      match sessao_get w url with
      | Ok corpo => (Ok corpo, com_memo (memo_put url corpo (memo st)) st)
      | Raise e => (Raise e, st)
      end
  end.

(** [buscar_url.cache_clear()] *)
Definition buscar_url_cache_clear : M unit := λ st, (Ok (), com_memo [] st).

(** *** The [flask_caching] store (a [SimpleCache]) *)

(** What [cache.get(key)] returns: [None] for an absent or an expired
    entry. *)
Definition cache_lookup (chave : string) (st : Estado) : option Valor :=
  match cache st !! chave with
  | Some (expira, v) =>
      if (expira =? 0) || (time_now w <? expira) then Some v else None
  | None => None
  end.

Definition cache_get (chave : string) : M (option Valor) := λ st,
  (Ok (cache_lookup chave st), st).

(** [cache.set(key, value)] with the configured default timeout.  The
    pruning the store does before inserting, once it holds more than its
    threshold of entries, is not modelled. *)
Definition cache_set (chave : string) (v : Valor) : M unit := λ st,
  (Ok (), com_cache (<[chave := (time_now w + CACHE_DEFAULT_TIMEOUT, v)]> (cache st)) st).

(** [cache.clear()] *)
Definition cache_clear : M unit := λ st, (Ok (), com_cache ∅ st).

(** *** [buscar_dados_santo] *)
Definition buscar_dados_santo (url : string) : M (option Santo) :=
  tentar (html ← buscar_url url;
          let soup := BeautifulSoup w html in
          mret (extrair_info_santo soup))
         (λ _, mret None).

(** *** [ThreadPoolExecutor(max_workers=5).map]

    Each call [f x] is run as one step.  The pool works on the first
    [max_workers] unfinished items; which of them finishes next is decided
    by the schedule [esc], a list of choices (a missing choice counts as 0).
    [completar] returns the results in completion order, tagged with the
    position of their item. *)
Fixpoint completar {A B} (f : A → M B) (n : nat) (pend : list (nat * A))
    (esc : list nat) (st : Estado) : list (nat * Resultado B) * Estado :=
  match n with
  | O => ([], st)
  | S n' =>
      let c := (hd 0 esc `mod` (max_workers `min` length pend))%nat in
      match pend !! c with
      | None => ([], st)
      | Some (i, x) =>
          let '(r, st1) := f x st in
          let '(feitos, st2) := completar f n' (delete c pend) (tl esc) st1 in
          ((i, r) :: feitos, st2)
      end
  end.

(** The results read back by position, as the iterator of [map] does. *)
Definition em_ordem {B} (k : nat) (feitos : list (nat * Resultado B))
    : list (Resultado B) :=
  omap (λ i, (list_to_map feitos : gmap nat (Resultado B)) !! i) (seq 0 k).

(** Consuming the iterator: the first exception met is raised. *)
Fixpoint consumir {B} (rs : list (Resultado B)) : Resultado (list B) :=
  match rs with
  | [] => Ok []
  | Ok b :: rs' =>
      match consumir rs' with
      | Ok bs => Ok (b :: bs)
      | Raise e => Raise e
      end
  | Raise e :: _ => Raise e
  end.

Definition executor_map {A B} (f : A → M B) (xs : list A) (esc : list nat)
    : M (list B) := λ st,
  let '(feitos, st') := completar f (length xs) (imap pair xs) esc st in
  (consumir (em_ordem (length xs) feitos), st').

(** *** Route [/] *)
Definition inicio (esc : list nat) : M Resposta :=
  let chave_cache := criar_chave_cache [AStr "inicio"] [] in
  dados_cache ← cache_get chave_cache;
  if truthy_opt truthy_lista dados_cache then
    mret (jsonify (Resultados (default [] dados_cache)) 200)
  else
    tentar
      (html ← buscar_url url_inicio;
       let soup := BeautifulSoup w html in
       let lista_santos := saints_list soup in
       let urls := default [] lista_santos in
       resultados ← executor_map buscar_dados_santo urls esc;
       let santos := filter_None resultados in
       let santos :=
         if negb (truthy_lista santos) && negb (bool_decide (is_Some lista_santos))
         then [extrair_info_santo soup] else santos in
       _ ← cache_set chave_cache santos;
       mret (jsonify (Resultados santos) 200))
      (λ e, mret (jsonify (Erro (str_exc e)) 500)).

(** *** Route [/dia=<int:dia>&mes=<int:mes>] *)
Definition data (dia mes : Z) (esc : list nat) : M Resposta :=
  let chave_cache := criar_chave_cache [AStr "data"; AInt dia; AInt mes] [] in
  dados_cache ← cache_get chave_cache;
  if truthy_opt truthy_lista dados_cache then
    mret (jsonify (Resultados (default [] dados_cache)) 200)
  else
    tentar
      (let url := url_data dia mes in
       html ← buscar_url url;
       let soup := BeautifulSoup w html in
       let lista_santos := saints_list soup in
       santos ←
         match lista_santos with
         | Some urls =>
             resultados ← executor_map buscar_dados_santo urls esc;
             mret (filter_None resultados)
         | None =>
             let info_santo := extrair_info_santo soup in
             mret (if truthy_opt truthy_santo info_santo
                   then [info_santo] else [])
         end;
       _ ← cache_set chave_cache santos;
       mret (jsonify (Resultados santos) 200))
      (λ e, mret (jsonify (Erro (str_exc e)) 500)).

(** *** Route [/limpar-cache] *)
Definition limpar_cache : M Resposta :=
  tentar
    (_ ← cache_clear;
     _ ← buscar_url_cache_clear;
     mret (jsonify (Mensagem "Todos os caches foram limpos com sucesso") 200))
    (λ e, mret (jsonify (Erro (str_exc e)) 500)).

(** A request served by Flask, from the view function on: the view
    function, then the [after_request] hook on its response.  The
    [before_request] hook [antes_requisicao] is not part of it. *)
Definition requisicao (view : M Resposta) : M Resposta :=
  resposta ← view; mret (apos_requisicao resposta).

(** *** [limpar_e_atualizar_cache]

    The body of the loop over the two URLs.  [santos] is a local variable of
    the enclosing function: it is unbound ([None]) until first assigned and
    keeps its value from one iteration to the next. *)
Definition pre_carregar (hoje : Data) (url : string) (esc : list nat)
    (santos : option Valor) : M (option Valor) :=
  tentar
    (html ← buscar_url url;
     let soup := BeautifulSoup w html in
     let lista_santos := saints_list soup in
     santos ←
       match lista_santos with
       | Some urls_santos =>
           resultados ← executor_map buscar_dados_santo urls_santos esc;
           mret (Some (filter_None resultados))
       | None =>
           let info_santo := extrair_info_santo soup in
           mret (if truthy_opt truthy_santo info_santo
                 then Some [info_santo] else santos)
       end;
     let chave_cache :=
       criar_chave_cache
         [AStr (if negb (contem "day" url) then "inicio"
                else "data_" +:+ pretty (day hoje) +:+ "_" +:+ pretty (month hoje))]
         [] in
     match santos with
     | Some v => _ ← cache_set chave_cache v; mret santos
     | None => raise (UnboundLocalError "santos")
     end)
    (λ _, mret santos).

Fixpoint percorrer (hoje : Data) (urls : list string) (esc : string → list nat)
    (santos : option Valor) : M unit :=
  match urls with
  | [] => mret ()
  | url :: urls' =>
      santos ← pre_carregar hoje url (esc url) santos;
      percorrer hoje urls' esc santos
  end.

Definition limpar_e_atualizar_cache (esc : string → list nat) : M unit :=
  tentar
    (_ ← cache_clear;
     _ ← buscar_url_cache_clear;
     let hoje := datetime_now w in
     let urls := [url_inicio; url_data (day hoje) (month hoje)] in
     percorrer hoje urls esc None)
    (λ _, mret ()).

End Programa.

(** ** Vocabulary of the statements *)

(** The two data routes, to state what holds of both. *)
Inductive Rota :=
| RotaInicio
| RotaData (dia mes : Z).

Definition view (w : Mundo) (r : Rota) (esc : list nat) : M Resposta :=
  match r with
  | RotaInicio => inicio w esc
  | RotaData dia mes => data w dia mes esc
  end.

(** The page a route fetches first. *)
Definition url_da_rota (r : Rota) : string :=
  match r with
  | RotaInicio => url_inicio
  | RotaData dia mes => url_data dia mes
  end.

(** The cache key a route computes. *)
Definition chave_da_rota (w : Mundo) (r : Rota) : string :=
  match r with
  | RotaInicio => criar_chave_cache w [AStr "inicio"] []
  | RotaData dia mes => criar_chave_cache w [AStr "data"; AInt dia; AInt mes] []
  end.

(** The record the origin currently gives for a child link: [None] when the
    fetch or the extraction fails. *)
Definition filho (w : Mundo) (url : string) : option Santo :=
  match sessao_get w url with
  | Ok html => extrair_info_santo (BeautifulSoup w html)
  | Raise _ => None
  end.

(** The memo of [buscar_url] holds nothing stale for [url]: a memoised body
    is the one the origin serves now. *)
Definition memo_fiel (w : Mundo) (url : string) (st : Estado) : Prop :=
  ∀ corpo, memo_get url (memo st) = Some corpo → sessao_get w url = Ok corpo.

(** A paragraph with some text besides white space. *)
Definition nao_vazio (p : string) : Prop := PyStr.strip p ≠ "".

(** The number of failed children among the outcomes of a fan-out. *)
Definition falhas (resultados : Valor) : nat :=
  length (List.filter (λ o, negb (truthy_opt truthy_santo o)) resultados).

(** What a data route stores and returns for a page without a list. *)
Definition sozinho (r : Rota) (soup : Soup) : Valor :=
  match r with
  | RotaInicio => [extrair_info_santo soup]
  | RotaData _ _ =>
      if truthy_opt truthy_santo (extrair_info_santo soup)
      then [extrair_info_santo soup] else []
  end.

(** The state after [cache.set(chave, v)]. *)
Definition guardar (w : Mundo) (chave : string) (v : Valor) (st : Estado) : Estado :=
  com_cache (<[chave := (time_now w + CACHE_DEFAULT_TIMEOUT, v)]> (cache st)) st.

(** The origin serves at [url] a page from which a record can be extracted
    and whose paragraphs are [ps]. *)
Definition pagina_de_santo (w : Mundo) (url : string) (ps : list string) : Prop :=
  ∃ html nm img,
    sessao_get w url = Ok html
    ∧ feature_name (BeautifulSoup w html) = Some nm
    ∧ imagem_de (feature (BeautifulSoup w html)) = Some img
    ∧ wg_text (BeautifulSoup w html) = Some ps.

(** A calendar date as [datetime] has them. *)
Definition data_valida (d : Data) : Prop :=
  (1 ≤ year d ≤ 9999) ∧ (1 ≤ month d ≤ 12) ∧ (1 ≤ day d ≤ 31).

(** [int(s)] for a string of decimal digits. *)
Definition int_de (s : string) : Z :=
  fold_left (λ n c, 10 * n + Z.of_nat (nat_of_ascii c - 48)) (list_ascii_of_string s) 0.

(** A run of the fan-out over [urls]: the links are taken one at a time,
    in some order, each fetched and parsed on the state left by those
    before it.  [feitos] lists the position and the outcome of each link in
    the order of completion. *)
Inductive corrida (w : Mundo) (urls : list string)
    : Estado → list (nat * option Santo) → Estado → Prop :=
| corrida_fim st : corrida w urls st [] st
| corrida_passo st i url o st1 feitos st2 :
    urls !! i = Some url →
    buscar_dados_santo w url st = (Ok o, st1) →
    corrida w urls st1 feitos st2 →
    corrida w urls st ((i, o) :: feitos) st2.

(** The key under which one iteration of the daily job stores what it
    resolved for [url]. *)
Definition chave_do_job (w : Mundo) (hoje : Data) (url : string) : string :=
  criar_chave_cache w
    [AStr (if negb (contem "day" url) then "inicio"
           else "data_" +:+ pretty (day hoje) +:+ "_" +:+ pretty (month hoje))]
    [].

(** The two routes the daily job warms. *)
Definition rota_do_dia (w : Mundo) (r : Rota) : Prop :=
  r = RotaInicio
  ∨ r = RotaData (day (datetime_now w)) (month (datetime_now w)).

(** The memo of [buscar_url] within its bounds: one entry per address, at
    most [maxsize] entries. *)
Definition memo_ok (st : Estado) : Prop :=
  NoDup (memo st).*1 ∧ (length (memo st) ≤ maxsize)%nat.

(** The state after the calls [buscar_url(url)] for each [url] of [urls],
    one after the other. *)
Definition buscar_varias (w : Mundo) (urls : list string) (st : Estado) : Estado :=
  foldl (λ st url, (buscar_url w url st).2) st urls.

(** A page with its paragraphs replaced. *)
Definition com_paragrafos (ps : list string) (soup : Soup) : Soup :=
  {| feature_name := feature_name soup; wg_text := Some ps;
     feature := feature soup; saints_list := saints_list soup |}.

(** ** Concrete pages, origins and states *)

Module Cenario.

Definition pagina_santo (nome : string) (ps : list string) : Soup :=
  {| feature_name := Some nome; wg_text := Some ps;
     feature := RetratoSrc "/img/santo.jpg"; saints_list := None |}.

Definition pagina_indice (urls : list string) : Soup :=
  {| feature_name := None; wg_text := None;
     feature := SemFeature; saints_list := Some urls |}.

(** A page with neither a list of saints nor a saint. *)
Definition pagina_sem_santo : Soup :=
  {| feature_name := None; wg_text := None;
     feature := SemFeature; saints_list := None |}.

Fixpoint assoc {A} (k : string) (l : list (string * A)) : option A :=
  match l with
  | [] => None
  | (k', a) :: l' => if decide (k' = k) then Some a else assoc k l'
  end.

(** An origin given by a table from address to body and a table from body
    to parsed page; an address outside the table answers 404.  The digest
    is kept symbolic. *)
Definition mundo_de (rede : list (string * string)) (paginas : list (string * Soup))
    : Mundo :=
  {| sessao_get := λ url,
       match assoc url rede with
       | Some html => Ok html
       | None => Raise (RequestException "404 Client Error: Not Found")
       end;
     BeautifulSoup := λ html, default pagina_sem_santo (assoc html paginas);
     md5 := λ s, "md5(" +:+ s +:+ ")";
     datetime_now := {| year := 2024; month := 11; day := 1 |};
     time_now := 1730430000 |}.

Definition seis : list string :=
  [" Nasceu em Roma. "; "Morreu no ano 304."; "Reflexao";
   "A fe vence o medo."; "Oracao"; "Rogai por nos."].

Definition paginas_A : list (string * Soup) :=
  [("<indice>", pagina_indice ["/santo/1"; "/santo/2"; "/santo/3"]);
   ("<santo 1>", pagina_santo "Santa Ines" seis);
   ("<santo 2>", pagina_santo "Sao Tarcisio" seis);
   ("<santo 3>", pagina_santo "Santa Luzia" seis)].

(** Scenario A: an index of three links, each child with six paragraphs. *)
Definition mundo_A : Mundo :=
  mundo_de [(url_inicio, "<indice>"); ("/santo/1", "<santo 1>");
            ("/santo/2", "<santo 2>"); ("/santo/3", "<santo 3>")]
           paginas_A.

(** Scenario D: as scenario A, but the second link cannot be fetched; the
    day/month page for 1 November is the same index. *)
Definition mundo_D : Mundo :=
  mundo_de [(url_inicio, "<indice>"); (url_data 1 11, "<indice>");
            ("/santo/1", "<santo 1>"); ("/santo/3", "<santo 3>")]
           paginas_A.

(** The default page is the index of scenario A; the page of 1 November
    carries neither a list nor a saint. *)
Definition mundo_E : Mundo :=
  mundo_de [(url_inicio, "<indice>"); (url_data 1 11, "<nada>");
            ("/santo/1", "<santo 1>"); ("/santo/2", "<santo 2>");
            ("/santo/3", "<santo 3>")]
           paginas_A.

(** The six paragraphs with the two skipped blocks replaced. *)
Definition seis_sem_titulos : list string :=
  [" Nasceu em Roma. "; "Morreu no ano 304."; "";
   "A fe vence o medo."; "Outro titulo"; "Rogai por nos."].

(** An origin whose pages carry neither a list nor a saint. *)
Definition mundo_sem_santo : Mundo :=
  mundo_de [(url_inicio, "<nada>"); (url_data 1 11, "<nada>")] [].

(** An origin that cannot be reached. *)
Definition mundo_fora_do_ar : Mundo := mundo_de [] [].

(** Three paragraphs, the first of them blank. *)
Definition pagina_branca : Soup :=
  pagina_santo "Sao Bento" ["   "; "Ora et labora."; "Amem."].

Definition santo_de (nome : string) : Santo :=
  {| nome := nome; imagem := Some "https://www.a12.com/img/santo.jpg";
     historia := "Nasceu em Roma." +:+ PyStr.blank_line +:+ "Morreu no ano 304.";
     reflexao := "A fe vence o medo.";
     oracao := "Rogai por nos." |}.

Definition urls_A : list string := ["/santo/1"; "/santo/2"; "/santo/3"].

Definition santos_A : list Santo :=
  [santo_de "Santa Ines"; santo_de "Sao Tarcisio"; santo_de "Santa Luzia"].

(** The moment [segundos] after that of [w], on the same calendar date, with
    the origin of [rede]. *)
Definition mundo_depois (segundos : Z) (w rede : Mundo) : Mundo :=
  {| sessao_get := sessao_get rede; BeautifulSoup := BeautifulSoup rede;
     md5 := md5 w; datetime_now := datetime_now w;
     time_now := time_now w + segundos |}.

(** A state whose cache holds [v], unexpired, under the key of route [r]. *)
Definition com_entrada (w : Mundo) (r : Rota) (v : Valor) : Estado :=
  com_cache {[ chave_da_rota w r := (time_now w + 3600, v) ]} estado_inicial.

End Cenario.

(** * Properties *)

(** ** Slices used by the extractor *)

Ltac caso_ltb :=
  repeat match goal with
         | |- context [?a <? ?b] => destruct (Z.ltb_spec a b); try lia
         end.

Lemma slice_sem_ultimos_4 {A} (l : list A) :
  PySlice.slice None (Some (-4)) l = take (length l - 4) l.
Proof.
  unfold PySlice.slice, PySlice.bound. caso_ltb.
  rewrite drop_0. f_equal. lia.
Qed.

Lemma slice_antepenultimo {A} (l : list A) :
  PySlice.slice (Some (-3)) (Some (-2)) l =
  if decide (3 ≤ length l)%nat then take 1 (drop (length l - 3) l) else [].
Proof.
  unfold PySlice.slice, PySlice.bound. caso_ltb.
  case_decide.
  - f_equal; [lia|]. f_equal. lia.
  - replace (Z.to_nat (_ - _)) with 0%nat by lia. done.
Qed.

Lemma slice_ultimo {A} (l : list A) :
  PySlice.slice (Some (-1)) None l = drop (length l - 1) l.
Proof.
  unfold PySlice.slice, PySlice.bound. caso_ltb.
  replace (Z.to_nat (Z.max _ _)) with (length l - 1)%nat by lia.
  apply take_ge. rewrite length_drop. lia.
Qed.

(** ** Joining the non-blank paragraphs *)

Lemma join_vazio sep (l : list string) :
  Forall (λ s, PyStr.truthy s = true) l → PyStr.join sep l = "" → l = [].
Proof.
  destruct l as [|s l]; [done|]. intros Hl. inversion_clear Hl as [|? ? Hs _].
  destruct s as [|c s]; [done|]. simpl. by destruct l.
Qed.

Lemma secao_vazia (ps : list string) :
  secao ps = "" ↔ Forall (λ p, PyStr.strip p = "") ps.
Proof.
  unfold secao. split.
  - intros H. apply join_vazio in H.
    + induction ps as [|p ps IH]; [constructor|]. simpl in H.
      destruct (PyStr.strip p) eqn:Hp; simpl in H; [|done].
      constructor; auto.
    + apply List.Forall_forall. intros s Hs. by apply List.filter_In in Hs as [_ ?].
  - induction 1 as [|p ps Hp _ IH]; [done|]. simpl. rewrite Hp. simpl. exact IH.
Qed.

Lemma take_1_drop {A} (i : nat) (l : list A) :
  take 1 (drop i l) = match l !! i with Some x => [x] | None => [] end.
Proof.
  rewrite <- (Nat.add_0_r i) at 2. rewrite <- lookup_drop.
  by destruct (drop i l).
Qed.

Lemma drop_ultimo {A} (l : list A) :
  drop (length l - 1) l =
  match l !! (length l - 1)%nat with Some x => [x] | None => [] end.
Proof.
  rewrite <- take_1_drop. symmetry. apply take_ge. rewrite length_drop. lia.
Qed.

(** ** The positional extraction law *)

(** C1, amended.  On a page from which a record can be extracted (name and
    feature container present, a portrait with its [src]) and whose
    paragraph list has length [N]: the story is built from the first
    [max(N-4, 0)] paragraphs; the reflection is empty iff [N < 3] or the
    paragraph at position [N-3] is blank; the prayer is empty iff [N = 0]
    or the last paragraph is blank.  When no paragraph is blank the
    reflection is empty iff [N < 3] and the prayer iff [N = 0]. *)
Theorem extrair_info_santo_posicional (soup : Soup) (nm : string)
    (img : option string) (ps : list string) :
  feature_name soup = Some nm →
  imagem_de (feature soup) = Some img →
  wg_text soup = Some ps →
  ∃ r, extrair_info_santo soup = Some r
    ∧ historia r = secao (take (length ps - 4) ps)
    ∧ Z.of_nat (length (take (length ps - 4) ps))
      = Z.max (Z.of_nat (length ps) - 4) 0
    ∧ (reflexao r = "" ↔
         (length ps < 3)%nat
         ∨ ∃ p, ps !! (length ps - 3)%nat = Some p ∧ PyStr.strip p = "")
    ∧ (oracao r = "" ↔
         length ps = 0%nat
         ∨ ∃ p, ps !! (length ps - 1)%nat = Some p ∧ PyStr.strip p = "")
    ∧ (Forall nao_vazio ps →
         (reflexao r = "" ↔ (length ps < 3)%nat)
         ∧ (oracao r = "" ↔ length ps = 0%nat)).
Proof.
  intros Hnm Himg Hps. unfold extrair_info_santo.
  rewrite Hnm, Hps. simpl. rewrite Himg. simpl.
  eexists. split; [reflexivity|]. simpl.
  rewrite slice_sem_ultimos_4, slice_antepenultimo, slice_ultimo.
  rewrite take_1_drop, drop_ultimo.
  assert (Hrefl : secao (if decide (3 ≤ length ps)%nat
                         then match ps !! (length ps - 3)%nat with
                              | Some x => [x] | None => [] end
                         else []) = "" ↔
                  (length ps < 3)%nat
                  ∨ ∃ p, ps !! (length ps - 3)%nat = Some p ∧ PyStr.strip p = "").
  { rewrite secao_vazia. case_decide as HN.
    - destruct (lookup_lt_is_Some_2 ps (length ps - 3)) as [p Hp]; [lia|].
      rewrite Hp. split.
      + intros Hf. inversion_clear Hf. right. eauto.
      + intros [?|(p' & Hp' & ?)]; [lia|]. simplify_eq. by repeat constructor.
    - split; [intros _; left; lia | constructor]. }
  assert (Hora : secao (match ps !! (length ps - 1)%nat with
                        | Some x => [x] | None => [] end) = "" ↔
                 length ps = 0%nat
                 ∨ ∃ p, ps !! (length ps - 1)%nat = Some p ∧ PyStr.strip p = "").
  { rewrite secao_vazia. destruct (decide (length ps = 0%nat)) as [H0|H0].
    - rewrite lookup_ge_None_2 by lia. split; [by left | constructor].
    - destruct (lookup_lt_is_Some_2 ps (length ps - 1)) as [p Hp]; [lia|].
      rewrite Hp. split.
      + intros Hf. inversion_clear Hf. right. eauto.
      + intros [?|(p' & Hp' & ?)]; [lia|]. simplify_eq. by repeat constructor. }
  split; [done|]. split; [rewrite length_take; lia|].
  split; [done|]. split; [done|].
  intros Hall. rewrite Hrefl, Hora. split.
  - split; [|by left]. intros [?|(p & Hp & Hs)]; [done|].
    by destruct (proj1 (Forall_lookup _ _) Hall _ _ Hp).
  - split; [|by left]. intros [?|(p & Hp & Hs)]; [done|].
    by destruct (proj1 (Forall_lookup _ _) Hall _ _ Hp).
Qed.

(** ** The text behind a cache key *)

Lemma append_inj_len (a1 a2 b1 b2 : string) :
  String.length a1 = String.length a2 →
  a1 +:+ b1 = a2 +:+ b2 → a1 = a2 ∧ b1 = b2.
Proof.
  revert a2. induction a1 as [|c a1 IH]; intros [|c' a2] Hlen Heq;
    simplify_eq/=; [done|].
  destruct (IH a2) as [-> ->]; [lia|done|done].
Qed.

Lemma campo_ano :
  Forall (λ y, String.length (zfill 4 (pretty y)) = 4%nat
               ∧ int_de (zfill 4 (pretty y)) = y) (seqZ 0 10000).
Proof. apply (bool_decide_unpack _). by vm_compute. Qed.

Lemma campo_mes_dia :
  Forall (λ n, String.length (zfill 2 (pretty n)) = 2%nat
               ∧ int_de (zfill 2 (pretty n)) = n) (seqZ 0 100).
Proof. apply (bool_decide_unpack _). by vm_compute. Qed.

Lemma zfill_4_inj (a b : Z) :
  0 ≤ a < 10000 → 0 ≤ b < 10000 →
  zfill 4 (pretty a) = zfill 4 (pretty b) → a = b.
Proof.
  intros Ha Hb Heq.
  destruct (proj1 (Forall_forall _ _) campo_ano a) as [_ <-];
    [apply elem_of_seqZ; lia|].
  destruct (proj1 (Forall_forall _ _) campo_ano b) as [_ <-];
    [apply elem_of_seqZ; lia|].
  by rewrite Heq.
Qed.

Lemma zfill_2_inj (a b : Z) :
  0 ≤ a < 100 → 0 ≤ b < 100 →
  zfill 2 (pretty a) = zfill 2 (pretty b) → a = b.
Proof.
  intros Ha Hb Heq.
  destruct (proj1 (Forall_forall _ _) campo_mes_dia a) as [_ <-];
    [apply elem_of_seqZ; lia|].
  destruct (proj1 (Forall_forall _ _) campo_mes_dia b) as [_ <-];
    [apply elem_of_seqZ; lia|].
  by rewrite Heq.
Qed.

(** Distinct calendar dates are formatted differently. *)
Lemma strftime_inj (d1 d2 : Data) :
  data_valida d1 → data_valida d2 → strftime d1 = strftime d2 → d1 = d2.
Proof.
  destruct d1 as [y1 m1 a1], d2 as [y2 m2 a2].
  intros (Hy1 & Hm1 & Ha1) (Hy2 & Hm2 & Ha2) Heq. simpl in *.
  unfold strftime in Heq. simpl in Heq.
  pose proof (proj1 (Forall_forall _ _) campo_ano) as Hano.
  pose proof (proj1 (Forall_forall _ _) campo_mes_dia) as Hmd.
  apply append_inj_len in Heq as [Hy Heq].
  2:{ rewrite (proj1 (Hano y1 ltac:(apply elem_of_seqZ; lia))).
      by rewrite (proj1 (Hano y2 ltac:(apply elem_of_seqZ; lia))). }
  injection Heq as Heq.
  change (zfill 2 (pretty m1) +:+ "-" +:+ zfill 2 (pretty a1)
          = zfill 2 (pretty m2) +:+ "-" +:+ zfill 2 (pretty a2)) in Heq.
  apply append_inj_len in Heq as [Hm Heq].
  2:{ rewrite (proj1 (Hmd m1 ltac:(apply elem_of_seqZ; lia))).
      by rewrite (proj1 (Hmd m2 ltac:(apply elem_of_seqZ; lia))). }
  injection Heq as Heq.
  change (zfill 2 (pretty a1) = zfill 2 (pretty a2)) in Heq.
  apply zfill_4_inj in Hy; [|lia..]. apply zfill_2_inj in Hm; [|lia..].
  apply zfill_2_inj in Heq; [|lia..]. by subst.
Qed.

Lemma join_snoc_inj (sep : string) (l : list string) (x y : string) :
  PyStr.join sep (l ++ [x]) = PyStr.join sep (l ++ [y]) → x = y.
Proof.
  induction l as [|s l IH]; [done|].
  assert (Hj : ∀ z, PyStr.join sep ((s :: l) ++ [z])
                    = s +:+ sep +:+ PyStr.join sep (l ++ [z])).
  { intros z. by destruct l. }
  rewrite !Hj. intros Heq. apply IH.
  by do 2 apply (inj (String.app _)) in Heq.
Qed.

(** X16.  The text hashed into a key differs when the calendar date
    differs, for the same arguments. *)
Lemma string_chave_muda_com_a_data (d1 d2 : Data) (args : list Arg)
    (kwargs : list (string * Arg)) :
  data_valida d1 → data_valida d2 → d1 ≠ d2 →
  string_chave d1 args kwargs ≠ string_chave d2 args kwargs.
Proof.
  intros H1 H2 Hne Heq. apply Hne, strftime_inj; [done..|].
  unfold string_chave in Heq. rewrite !(assoc_L (++)) in Heq.
  by apply join_snoc_inj in Heq.
Qed.

(** The key is a function of the arguments, the calendar date and the hash
    alone: two computations on the same date give the same key. *)
Lemma criar_chave_cache_mesma_data (w1 w2 : Mundo) (args : list Arg)
    (kwargs : list (string * Arg)) :
  md5 w1 = md5 w2 → datetime_now w1 = datetime_now w2 →
  criar_chave_cache w1 args kwargs = criar_chave_cache w2 args kwargs.
Proof. unfold criar_chave_cache. by intros -> ->. Qed.

(** ** Keyword arguments of the key *)

Lemma inserir_Permutation kv l : inserir kv l ≡ₚ kv :: l.
Proof.
  induction l as [|kv' l IH]; [done|]. simpl.
  destruct (String.leb kv.1 kv'.1); [done|].
  rewrite IH. apply Permutation_swap.
Qed.

Lemma sorted_Permutation kwargs : sorted kwargs ≡ₚ kwargs.
Proof.
  induction kwargs as [|kv l IH]; [done|].
  unfold sorted in *. simpl. by rewrite inserir_Permutation, IH.
Qed.

Lemma inserir_Sorted kv l :
  Sorted (λ a b, String.le a.1 b.1) l →
  Sorted (λ a b, String.le a.1 b.1) (inserir kv l).
Proof.
  induction 1 as [|kv' l Hs IH Hhd]; simpl; [by repeat constructor|].
  destruct (String.leb kv.1 kv'.1) eqn:Hle.
  - constructor; [by constructor|]. constructor.
    unfold String.le. by rewrite Hle.
  - assert (Hge : String.le kv'.1 kv.1).
    { destruct (total String.le kv.1 kv'.1) as [H|H]; [|done].
      unfold String.le in H. by rewrite Hle in H. }
    constructor; [done|].
    destruct l as [|kv2 l]; simpl in *; [by constructor|].
    inversion_clear Hhd. destruct (String.leb kv.1 kv2.1); by constructor.
Qed.

Lemma sorted_Sorted kwargs : Sorted (λ a b, String.le a.1 b.1) (sorted kwargs).
Proof.
  induction kwargs as [|kv l IH]; [constructor|].
  unfold sorted in *. simpl. by apply inserir_Sorted.
Qed.

(** X12.  The key does not depend on the order in which keyword arguments
    are given: two argument lists with the same distinct names and values
    give the same key. *)
Theorem criar_chave_cache_ordem_dos_kwargs (w : Mundo) (args : list Arg)
    (kw1 kw2 : list (string * Arg)) :
  NoDup kw1.*1 → kw1 ≡ₚ kw2 →
  criar_chave_cache w args kw1 = criar_chave_cache w args kw2.
Proof.
  intros Hnd Hperm. unfold criar_chave_cache, string_chave.
  assert (Hs : sorted kw1 = sorted kw2); [|by rewrite Hs].
  assert (Htr : Transitive (λ a b : string * Arg, String.le a.1 b.1)).
  { intros a b c ??. by etrans. }
  apply (Sorted_unique_strong (λ a b : string * Arg, String.le a.1 b.1)).
  - intros x1 x2 H1 H2 H12 H21.
    assert (Hk : x1.1 = x2.1) by (by apply (anti_symm String.le)).
    rewrite sorted_Permutation in H1. rewrite sorted_Permutation, <- Hperm in H2.
    apply list_elem_of_lookup in H1 as [i Hi], H2 as [j Hj].
    assert (i = j) as ->.
    { apply (NoDup_lookup kw1.*1 i j x1.1); [done|..];
        rewrite list_lookup_fmap; [by rewrite Hi|by rewrite Hj, Hk]. }
    congruence.
  - apply sorted_Sorted.
  - apply sorted_Sorted.
  - by rewrite !sorted_Permutation.
Qed.

(** ** The two blocks the extractor skips *)

Lemma take_ext {A} (n : nat) (l l' : list A) :
  (∀ i, (i < n)%nat → l' !! i = l !! i) → take n l' = take n l.
Proof.
  intros H. apply list_eq. intros i.
  destruct (decide (i < n)%nat).
  - rewrite !lookup_take_lt by done. auto.
  - rewrite !lookup_take_ge by lia. done.
Qed.

(** X13.  The record extracted from a page does not depend on the paragraphs
    at the fourth and at the second position from the end: the blocks
    before the reflection and before the prayer are skipped. *)
Theorem extrair_info_santo_ignora_dois_blocos (soup : Soup)
    (ps ps' : list string) :
  length ps' = length ps →
  (∀ i, (i + 4 ≠ length ps)%nat → (i + 2 ≠ length ps)%nat →
        ps' !! i = ps !! i) →
  extrair_info_santo (com_paragrafos ps' soup)
  = extrair_info_santo (com_paragrafos ps soup).
Proof.
  intros Hlen Hps. unfold extrair_info_santo. simpl.
  destruct (feature_name soup) as [nm|]; [|done]. simpl.
  destruct (imagem_de (feature soup)) as [img|]; [|done]. simpl.
  rewrite !slice_sem_ultimos_4, !slice_antepenultimo, !slice_ultimo.
  rewrite !take_1_drop, !drop_ultimo, Hlen.
  do 2 f_equal.
  - f_equal. apply take_ext. intros i Hi. apply Hps; lia.
  - case_decide; [|done]. by rewrite Hps by lia.
  - destruct (decide (length ps = 0%nat)) as [H0|H0].
    + by rewrite !lookup_ge_None_2 by lia.
    + by rewrite Hps by lia.
Qed.

(** ** The memo of [buscar_url] *)

Lemma memo_get_sem_ne (u v : string) (m : list (string * string)) :
  u ≠ v → memo_get u (memo_sem v m) = memo_get u m.
Proof.
  intros Hne. induction m as [|[k c] m IH]; [done|]. simpl.
  case_bool_decide as Hk; simpl.
  - subst k. by rewrite decide_False by done.
  - by destruct (decide (k = u)).
Qed.

Lemma memo_get_take (u : string) (n : nat) (m : list (string * string)) c :
  memo_get u (take n m) = Some c → memo_get u m = Some c.
Proof.
  revert n. induction m as [|[k c'] m IH]; intros [|n]; simpl; try done.
  destruct (decide (k = u)); [done|]. apply IH.
Qed.

Section Propriedades.

Variable w : Mundo.

Lemma buscar_url_chamadas url st :
  chamadas (buscar_url w url st).2 = (chamadas st ++ [url])%list.
Proof.
  unfold buscar_url. simpl. destruct (memo_get url (memo st)); [done|].
  by destruct (sessao_get w url).
Qed.

Lemma buscar_url_com_cache url c st :
  buscar_url w url (com_cache c st)
  = ((buscar_url w url st).1, com_cache c (buscar_url w url st).2).
Proof.
  unfold buscar_url. simpl. destruct (memo_get url (memo st)); [done|].
  by destruct (sessao_get w url).
Qed.

Lemma buscar_url_memo_fiel url u st :
  memo_fiel w u st → memo_fiel w u (buscar_url w url st).2.
Proof.
  unfold memo_fiel, buscar_url. simpl. intros Hf c.
  destruct (memo_get url (memo st)) as [c'|] eqn:Hm; simpl.
  - destruct (decide (url = u)) as [->|Hne]; [|rewrite memo_get_sem_ne by done; auto].
    intros [= <-]. auto.
  - destruct (sessao_get w url) as [c'|e] eqn:Hs; simpl; [|auto].
    destruct (decide (url = u)) as [->|Hne]; [congruence|].
    intros Hc. apply memo_get_take in Hc.
    rewrite memo_get_sem_ne in Hc by done. auto.
Qed.

Lemma buscar_url_fiel url st :
  memo_fiel w url st → (buscar_url w url st).1 = sessao_get w url.
Proof.
  unfold memo_fiel, buscar_url. simpl. intros Hf.
  destruct (memo_get url (memo st)) as [c'|] eqn:Hm; simpl.
  - symmetry. auto.
  - by destruct (sessao_get w url).
Qed.

(** ** The executor *)

Lemma escolha_valida (e n : nat) :
  (0 < n → e `mod` (max_workers `min` n) < n)%nat.
Proof.
  intros Hn. unfold max_workers.
  pose proof (Nat.mod_upper_bound e (5 `min` n)). lia.
Qed.

Lemma completar_S {A B} (f : A → M B) n pend esc st :
  completar f (S n) pend esc st =
  let c := (hd 0 esc `mod` (max_workers `min` length pend))%nat in
  match pend !! c with
  | None => ([], st)
  | Some (i, x) =>
      let '(r, st1) := f x st in
      let '(feitos, st2) := completar f n (delete c pend) (tl esc) st1 in
      ((i, r) :: feitos, st2)
  end.
Proof. reflexivity. Qed.

Lemma completar_spec {A B} (f : A → M B) (I : Estado → Prop)
    (R : A → Resultado B → Prop) :
  (∀ x st, I st → R x (f x st).1 ∧ I (f x st).2) →
  ∀ n pend esc st, length pend = n → I st →
    I (completar f n pend esc st).2
    ∧ (completar f n pend esc st).1.*1 ≡ₚ pend.*1
    ∧ Forall (λ ir, ∃ x, (ir.1, x) ∈ pend ∧ R x ir.2)
             (completar f n pend esc st).1.
Proof.
  intros Hf. induction n as [|n IH]; intros pend esc st Hlen Hst.
  - destruct pend; [|done]. simpl. by repeat split.
  - rewrite completar_S. cbv zeta.
    destruct (lookup_lt_is_Some_2 pend
                (hd 0%nat esc `mod` (max_workers `min` length pend))%nat)
      as [[i x] Hix]; [apply escolha_valida; lia|].
    rewrite Hix. destruct (f x st) as [r st1] eqn:Hfx.
    destruct (Hf x st Hst) as [HR Hst1]. rewrite Hfx in HR, Hst1. simpl in *.
    pose proof (delete_Permutation _ _ _ Hix) as Hperm.
    destruct (IH (delete (hd 0%nat esc `mod` (max_workers `min` length pend))%nat pend)
                 (tl esc) st1) as (HI & Hp & HF); [|done|].
    { rewrite length_delete by eauto. lia. }
    destruct (completar f n _ (tl esc) st1) as [feitos st2]. simpl in *.
    split; [done|]. split.
    + rewrite Hperm. csimpl. by rewrite Hp.
    + constructor.
      * exists x. split; [|done]. simpl. rewrite Hperm. left.
      * eapply Forall_impl; [exact HF|]. intros [j r'] (y & Hy & ?).
        exists y. split; [|done]. rewrite Hperm. by right.
Qed.

Lemma fst_imap_pair {A} (xs : list A) : (imap pair xs).*1 = seq 0 (length xs).
Proof.
  rewrite fmap_imap. rewrite <- (list_fmap_id (seq 0 (length xs))).
  rewrite <- imap_seq_0. by apply imap_ext.
Qed.

Lemma omap_todos {A B} (f : A → option B) (l : list A) :
  Forall (λ x, is_Some (f x)) l → Some <$> omap f l = f <$> l.
Proof.
  induction 1 as [|x l [b Hb] _ IH]; [done|]. csimpl. rewrite Hb. csimpl.
  by rewrite IH.
Qed.

Lemma em_ordem_spec {A B} (R : A → Resultado B → Prop) (xs : list A)
    (feitos : list (nat * Resultado B)) :
  feitos.*1 ≡ₚ seq 0 (length xs) →
  Forall (λ ir, ∃ x, (ir.1, x) ∈ imap pair xs ∧ R x ir.2) feitos →
  Forall2 R xs (em_ordem (length xs) feitos).
Proof.
  intros Hperm HF. unfold em_ordem.
  set (m := list_to_map feitos : gmap nat (Resultado B)).
  assert (Hnd : NoDup feitos.*1) by (rewrite Hperm; apply NoDup_seq).
  assert (Hm : ∀ i, (i < length xs)%nat → is_Some (m !! i)).
  { intros i Hi. assert (Hin : i ∈ feitos.*1).
    { rewrite Hperm. apply elem_of_seq. lia. }
    apply list_elem_of_fmap in Hin as ([j r] & -> & Hin).
    exists r. by apply elem_of_list_to_map_1. }
  assert (Hsome : Some <$> omap (λ i, m !! i) (seq 0 (length xs))
                  = (λ i, m !! i) <$> seq 0 (length xs)).
  { apply omap_todos, Forall_forall. intros i Hi.
    apply elem_of_seq in Hi. apply Hm. lia. }
  apply Forall2_same_length_lookup. split.
  - rewrite <- (length_fmap Some (omap _ _)), Hsome, length_fmap, length_seq.
    done.
  - intros i x r Hx Hr.
    assert (Hr' : (Some <$> omap (λ i, m !! i) (seq 0 (length xs))) !! i
                  = Some (Some r)) by (by rewrite list_lookup_fmap, Hr).
    rewrite Hsome, list_lookup_fmap in Hr'.
    rewrite lookup_seq_lt in Hr' by (by eapply lookup_lt_Some). simpl in Hr'.
    injection Hr' as Hr'. apply elem_of_list_to_map_2 in Hr'.
    destruct (proj1 (Forall_forall _ _) HF _ Hr') as (x' & Hx' & HR).
    apply elem_of_lookup_imap in Hx' as (j & y & [= -> ->] & Hy). simpl in *.
    by simplify_eq.
Qed.

Lemma consumir_Ok {A B} (R : A → B → Prop) (xs : list A) (rs : list (Resultado B)) :
  Forall2 (λ x r, ∃ b, r = Ok b ∧ R x b) xs rs →
  ∃ bs, consumir rs = Ok bs ∧ Forall2 R xs bs.
Proof.
  induction 1 as [|x r xs rs (b & -> & Hb) _ (bs & Hbs & IH)].
  - by exists [].
  - exists (b :: bs). simpl. rewrite Hbs. split; [done|]. by constructor.
Qed.

(** What [executor.map] gives for any schedule: one result per item, in the
    order of the items. *)
Lemma executor_map_spec {A B} (f : A → M B) (I : Estado → Prop)
    (R : A → B → Prop) (xs : list A) (esc : list nat) (st : Estado) :
  (∀ x st, I st → (∃ b, (f x st).1 = Ok b ∧ R x b) ∧ I (f x st).2) →
  I st →
  ∃ bs, (executor_map f xs esc st).1 = Ok bs
      ∧ Forall2 R xs bs
      ∧ I (executor_map f xs esc st).2.
Proof.
  intros Hf Hst. unfold executor_map.
  destruct (completar_spec f I (λ x r, ∃ b, r = Ok b ∧ R x b) Hf
              (length xs) (imap pair xs) esc st) as (HI & Hp & HF);
    [by rewrite length_imap|done|].
  destruct (completar f _ _ esc st) as [feitos st']. simpl in *.
  rewrite fst_imap_pair in Hp.
  destruct (consumir_Ok R xs (em_ordem (length xs) feitos)) as (bs & Hbs & HR).
  { by apply em_ordem_spec. }
  eauto.
Qed.

(** ** [buscar_dados_santo] *)

Ltac desdobrar :=
  unfold tentar, mbind, M_bind, mret, M_ret, raise, cache_get, cache_set in *.

Lemma buscar_dados_santo_eq url st :
  buscar_dados_santo w url st =
  (Ok (match (buscar_url w url st).1 with
       | Ok html => extrair_info_santo (BeautifulSoup w html)
       | Raise _ => None
       end), (buscar_url w url st).2).
Proof.
  unfold buscar_dados_santo. desdobrar.
  by destruct (buscar_url w url st) as [[html|e] st'].
Qed.

Lemma buscar_dados_santo_Ok url st :
  ∃ o, (buscar_dados_santo w url st).1 = Ok o.
Proof. rewrite buscar_dados_santo_eq. eauto. Qed.

Lemma buscar_dados_santo_chamadas url st :
  chamadas (buscar_dados_santo w url st).2 = (chamadas st ++ [url])%list.
Proof. rewrite buscar_dados_santo_eq. apply buscar_url_chamadas. Qed.

Lemma buscar_dados_santo_com_cache url c st :
  buscar_dados_santo w url (com_cache c st)
  = ((buscar_dados_santo w url st).1,
     com_cache c (buscar_dados_santo w url st).2).
Proof. by rewrite !buscar_dados_santo_eq, buscar_url_com_cache. Qed.

Lemma buscar_dados_santo_memo_fiel url u st :
  memo_fiel w u st → memo_fiel w u (buscar_dados_santo w url st).2.
Proof. rewrite buscar_dados_santo_eq. apply buscar_url_memo_fiel. Qed.

Lemma buscar_dados_santo_fiel url st :
  memo_fiel w url st → (buscar_dados_santo w url st).1 = Ok (filho w url).
Proof.
  intros Hf. rewrite buscar_dados_santo_eq. simpl.
  by rewrite buscar_url_fiel.
Qed.

Lemma com_cache_cache st : com_cache (cache st) st = st.
Proof. by destruct st. Qed.

Lemma buscar_dados_santo_cache url st :
  cache (buscar_dados_santo w url st).2 = cache st.
Proof.
  rewrite <- (com_cache_cache st) at 1.
  by rewrite buscar_dados_santo_com_cache.
Qed.

(** ** The fan-out over the child links *)

Lemma completar_com_cache {A B} (f : A → M B) :
  (∀ x c st, f x (com_cache c st) = ((f x st).1, com_cache c (f x st).2)) →
  ∀ n pend esc c st,
    completar f n pend esc (com_cache c st)
    = ((completar f n pend esc st).1, com_cache c (completar f n pend esc st).2).
Proof.
  intros Hf. induction n as [|n IH]; intros pend esc c st; [done|].
  rewrite !completar_S. cbv zeta.
  destruct (pend !! _) as [[i x]|]; [|done].
  rewrite Hf. destruct (f x st) as [r st1]. simpl.
  rewrite IH. by destruct (completar f n _ _ st1).
Qed.

Lemma fan_out_com_cache urls esc c st :
  executor_map (buscar_dados_santo w) urls esc (com_cache c st)
  = ((executor_map (buscar_dados_santo w) urls esc st).1,
     com_cache c (executor_map (buscar_dados_santo w) urls esc st).2).
Proof.
  unfold executor_map.
  rewrite (completar_com_cache _ (buscar_dados_santo_com_cache)).
  by destruct (completar _ _ _ esc st).
Qed.

Lemma fan_out urls esc st :
  ∃ outs,
    (executor_map (buscar_dados_santo w) urls esc st).1 = Ok outs
    ∧ Forall2 (λ url o, ∃ st0, (buscar_dados_santo w url st0).1 = Ok o) urls outs
    ∧ cache (executor_map (buscar_dados_santo w) urls esc st).2 = cache st
    ∧ chamadas st `prefix_of`
        chamadas (executor_map (buscar_dados_santo w) urls esc st).2
    ∧ (∀ u, memo_fiel w u st →
            memo_fiel w u (executor_map (buscar_dados_santo w) urls esc st).2)
    ∧ ((∀ u, u ∈ urls → memo_fiel w u st) → outs = filho w <$> urls).
Proof.
  destruct (executor_map_spec (buscar_dados_santo w)
              (λ s, cache s = cache st ∧ chamadas st `prefix_of` chamadas s)
              (λ url o, ∃ st0, (buscar_dados_santo w url st0).1 = Ok o)
              urls esc st) as (outs & Houts & HR & Hc & Hch); [|done|].
  { intros url s [Hc Hch]. destruct (buscar_dados_santo_Ok url s) as [o Ho].
    split; [eauto|]. split.
    - by rewrite buscar_dados_santo_cache.
    - rewrite buscar_dados_santo_chamadas.
      etrans; [exact Hch|]. by apply prefix_app_r. }
  exists outs. repeat split; try done.
  - intros u Hu.
    destruct (executor_map_spec (buscar_dados_santo w) (memo_fiel w u)
                (λ _ _, True) urls esc st) as (_ & _ & _ & H); [|done|done].
    intros url s Hs. destruct (buscar_dados_santo_Ok url s) as [o Ho].
    split; [eauto|]. by apply buscar_dados_santo_memo_fiel.
  - intros Hfiel.
    destruct (executor_map_spec (buscar_dados_santo w)
                (λ s, ∀ u, u ∈ urls → memo_fiel w u s)
                (λ url o, url ∈ urls → o = filho w url)
                urls esc st) as (outs' & Houts' & HR' & _); [|done|].
    { intros url s Hs. destruct (buscar_dados_santo_Ok url s) as [o Ho].
      split.
      - exists o. split; [done|]. intros Hin.
        rewrite (buscar_dados_santo_fiel url s) in Ho by auto. congruence.
      - intros u Hu. apply buscar_dados_santo_memo_fiel. auto. }
    assert (outs' = outs) as -> by congruence.
    apply list_eq_same_length with (length urls).
    + by rewrite length_fmap.
    + symmetry. by eapply Forall2_length.
    + intros i o o' Hi Ho Ho'. rewrite list_lookup_fmap in Ho'.
      destruct (urls !! i) as [u|] eqn:Hu; [|done]. simpl in Ho'.
      injection Ho' as <-.
      eapply Forall2_lookup_lr in HR'; [|done..].
      apply HR'. by eapply list_elem_of_lookup_2.
Qed.

Lemma completar_corrida (urls : list string) (n : nat)
    (pend : list (nat * string)) (esc : list nat) (st : Estado) :
  length pend = n →
  (∀ i u, (i, u) ∈ pend → urls !! i = Some u) →
  ∃ feitos,
    (completar (buscar_dados_santo w) n pend esc st).1
    = prod_map id Ok <$> feitos
    ∧ corrida w urls st feitos
        (completar (buscar_dados_santo w) n pend esc st).2.
Proof.
  revert pend esc st. induction n as [|n IH]; intros pend esc st Hlen Hpend.
  - exists []. split; [done|]. constructor.
  - rewrite completar_S. cbv zeta.
    destruct (lookup_lt_is_Some_2 pend
                (hd 0%nat esc `mod` (max_workers `min` length pend))%nat)
      as [[i u] Hiu]; [apply escolha_valida; lia|].
    rewrite Hiu. rewrite buscar_dados_santo_eq.
    set (o := match (buscar_url w u st).1 with
              | Ok html => extrair_info_santo (BeautifulSoup w html)
              | Raise _ => None
              end).
    set (st1 := (buscar_url w u st).2).
    pose proof (delete_Permutation _ _ _ Hiu) as Hperm.
    destruct (IH (delete (hd 0%nat esc `mod` (max_workers `min` length pend))%nat pend)
                 (tl esc) st1) as (feitos & Hf & Hrun).
    { rewrite length_delete by eauto. lia. }
    { intros j v Hj. apply Hpend. rewrite Hperm. by right. }
    destruct (completar _ n _ (tl esc) st1) as [fs st2]. simpl in *.
    exists ((i, o) :: feitos). split; [by rewrite Hf|].
    econstructor; [|apply buscar_dados_santo_eq|exact Hrun].
    apply Hpend. by eapply list_elem_of_lookup_2.
Qed.

Lemma em_ordem_lookup {B} (k : nat) (feitos : list (nat * Resultado B)) :
  feitos.*1 ≡ₚ seq 0 k →
  length (em_ordem k feitos) = k
  ∧ ∀ i r, em_ordem k feitos !! i = Some r ↔ (i, r) ∈ feitos.
Proof.
  intros Hperm. unfold em_ordem.
  set (m := list_to_map feitos : gmap nat (Resultado B)).
  assert (Hnd : NoDup feitos.*1) by (rewrite Hperm; apply NoDup_seq).
  assert (Hsome : Some <$> omap (λ i, m !! i) (seq 0 k)
                  = (λ i, m !! i) <$> seq 0 k).
  { apply omap_todos, Forall_forall. intros i Hi.
    assert (Hin : i ∈ feitos.*1) by (by rewrite Hperm).
    apply list_elem_of_fmap in Hin as ([j r] & -> & Hin).
    exists r. by apply elem_of_list_to_map_1. }
  assert (Hlen : length (omap (λ i, m !! i) (seq 0 k)) = k).
  { by rewrite <- (length_fmap Some (omap _ _)), Hsome, length_fmap, length_seq. }
  split; [done|]. intros i r.
  assert (Hl : omap (λ i, m !! i) (seq 0 k) !! i = Some r
               ↔ (i < k)%nat ∧ m !! i = Some r).
  { transitivity ((Some <$> omap (λ i, m !! i) (seq 0 k)) !! i = Some (Some r)).
    - rewrite list_lookup_fmap.
      destruct (omap _ _ !! i); simpl; naive_solver.
    - rewrite Hsome, list_lookup_fmap. split.
      + intros Hi. destruct (seq 0 k !! i) as [j|] eqn:Hj; [|done].
        apply lookup_seq in Hj as [-> ?]. simpl in Hi. naive_solver.
      + intros [Hi Hm]. rewrite lookup_seq_lt by done. simpl. by rewrite Hm. }
  rewrite Hl. rewrite (elem_of_list_to_map _ _ _ Hnd). fold m. split.
  - by intros [_ ?].
  - intros Hm. split; [|done]. apply elem_of_list_to_map_2 in Hm.
    assert (Hin : i ∈ feitos.*1).
    { apply list_elem_of_fmap. by exists (i, r). }
    rewrite Hperm in Hin. apply elem_of_seq in Hin. lia.
Qed.

Lemma consumir_Ok_inv {B} (rs : list (Resultado B)) (bs : list B) :
  consumir rs = Ok bs → rs = Ok <$> bs.
Proof.
  revert bs. induction rs as [|[b|e] rs IH]; intros bs; simpl.
  - by intros [= <-].
  - destruct (consumir rs) as [bs'|]; [|done]. intros [= <-].
    csimpl. f_equal. by apply IH.
  - done.
Qed.

(** The fan-out is a run over the links, and the outcome read back at a
    position is the outcome of the link at that position, whenever it was
    completed. *)
Lemma fan_out_corrida urls esc st outs :
  (executor_map (buscar_dados_santo w) urls esc st).1 = Ok outs →
  ∃ feitos,
    corrida w urls st feitos
      (executor_map (buscar_dados_santo w) urls esc st).2
    ∧ feitos.*1 ≡ₚ seq 0 (length urls)
    ∧ ∀ i o, outs !! i = Some o ↔ (i, o) ∈ feitos.
Proof.
  unfold executor_map.
  destruct (completar_corrida urls (length urls) (imap pair urls) esc st)
    as (feitos & Hf & Hrun).
  { by rewrite length_imap. }
  { intros i u Hiu. by apply elem_of_lookup_imap in Hiu as (j & y & [= -> ->] & ?). }
  destruct (completar_spec (buscar_dados_santo w) (λ _, True) (λ _ _, True)
              ltac:(done) (length urls) (imap pair urls) esc st)
    as (_ & Hp & _); [by rewrite length_imap|done|].
  destruct (completar _ _ _ esc st) as [fs st']. simpl in *. subst fs.
  rewrite fst_imap_pair in Hp. intros Hcons.
  apply consumir_Ok_inv in Hcons.
  destruct (em_ordem_lookup (length urls) (prod_map id Ok <$> feitos) Hp)
    as [_ Hlook].
  assert (Hfst : (prod_map id Ok <$> feitos).*1 = feitos.*1).
  { rewrite <- list_fmap_compose. by apply list_fmap_ext; intros ? []. }
  rewrite Hfst in Hp.
  exists feitos. split; [done|]. split; [done|]. intros i o.
  transitivity ((Ok <$> outs) !! i = Some (Ok o)).
  - rewrite list_lookup_fmap.
    destruct (outs !! i) as [o'|]; simpl; split; intros Hx; by simplify_eq.
  - rewrite <- Hcons, Hlook. rewrite list_elem_of_fmap. split.
    + intros ([j o'] & Heq & ?). simpl in Heq. by simplify_eq.
    + intros ?. by exists (i, o).
Qed.

(** ** The routes, case by case *)

(** A stored non-empty value is returned as it is, and nothing else
    happens. *)
Lemma view_hit (r : Rota) (esc : list nat) (st : Estado) (x : option Santo)
    (v : Valor) :
  cache_lookup w (chave_da_rota w r) st = Some (x :: v) →
  view w r esc st = (Ok (jsonify (Resultados (x :: v)) 200), st).
Proof.
  intros Hc. destruct r as [|dia mes]; unfold view, inicio, data; desdobrar;
    simpl in Hc |- *; by rewrite Hc.
Qed.

(** Without a stored non-empty value a data route fetches its page; the
    outcome is an error response, the survivors of a fan-out, or the page
    itself. *)
Lemma view_busca (r : Rota) (esc : list nat) (st : Estado) :
  truthy_opt truthy_lista (cache_lookup w (chave_da_rota w r) st) = false →
  match buscar_url w (url_da_rota r) st with
  | (Raise e, st1) =>
      view w r esc st = (Ok (jsonify (Erro (str_exc e)) 500), st1)
  | (Ok html, st1) =>
      match saints_list (BeautifulSoup w html) with
      | Some urls =>
          ∃ outs,
            (executor_map (buscar_dados_santo w) urls esc st1).1 = Ok outs
            ∧ view w r esc st
              = (Ok (jsonify (Resultados (filter_None outs)) 200),
                 guardar w (chave_da_rota w r) (filter_None outs)
                   (executor_map (buscar_dados_santo w) urls esc st1).2)
      | None =>
          view w r esc st
          = (Ok (jsonify (Resultados (sozinho r (BeautifulSoup w html))) 200),
             guardar w (chave_da_rota w r) (sozinho r (BeautifulSoup w html)) st1)
      end
  end.
Proof.
  intros Hmiss. unfold guardar, sozinho.
  destruct (buscar_url w (url_da_rota r) st) as [[html|e] st1] eqn:Hb.
  - destruct (saints_list (BeautifulSoup w html)) as [urls|] eqn:Hl.
    + destruct (fan_out urls esc st1) as (outs & Houts & _).
      exists outs. split; [done|].
      destruct r as [|dia mes]; unfold view, inicio, data; desdobrar;
        simpl in Hmiss, Hb |- *; rewrite Hmiss, Hb, Hl; simpl;
        destruct (executor_map _ urls esc st1) as [ro st2];
        simpl in Houts; subst ro; try done.
      by rewrite andb_false_r.
    + destruct r as [|dia mes]; unfold view, inicio, data; desdobrar;
        simpl in Hmiss, Hb |- *; by rewrite Hmiss, Hb, Hl.
  - destruct r as [|dia mes]; unfold view, inicio, data; desdobrar;
      simpl in Hmiss, Hb |- *; by rewrite Hmiss, Hb.
Qed.

Lemma requisicao_eq (m : M Resposta) (st : Estado) :
  requisicao m st =
  match m st with
  | (Ok resposta, st') => (Ok (apos_requisicao resposta), st')
  | (Raise e, st') => (Raise e, st')
  end.
Proof. reflexivity. Qed.

Lemma buscar_url_cache url st : cache (buscar_url w url st).2 = cache st.
Proof.
  rewrite <- (com_cache_cache st) at 1. by rewrite buscar_url_com_cache.
Qed.

Lemma filter_None_length (outs : Valor) :
  length (filter_None outs) = (length outs - falhas outs)%nat.
Proof.
  unfold filter_None, falhas.
  assert (length (List.filter (λ o, negb (truthy_opt truthy_santo o)) outs)
          + length (List.filter (truthy_opt truthy_santo) outs)
          = length outs)%nat; [|lia].
  induction outs as [|o outs IH]; [done|]. simpl.
  destruct (truthy_opt truthy_santo o); simpl; lia.
Qed.

Lemma filter_None_sublist (outs : Valor) : filter_None outs `sublist_of` outs.
Proof.
  induction outs as [|o outs IH]; [constructor|]. unfold filter_None. simpl.
  destruct (truthy_opt truthy_santo o); by constructor.
Qed.

(** ** Fan-out over a list page *)

(** C3.  On a list page with links [urls], fetched by either data route, and
    for every order in which the workers finish: the response is a normal
    one, also when children fail, and its records are the successful ones
    among the outcomes [outs].  The fan-out is a run over the links in some
    order of completion, and [outs] holds at each position the outcome of
    the link at that position, so the records come in document order; their
    number is the number of links minus the number of failed children.
    When the memo holds nothing stale for the links, the outcomes are those
    of the origin and the result does not depend on the schedule at all. *)
Theorem fan_out_ordem_dos_links (r : Rota) (esc : list nat) (st : Estado)
    (html : string) (urls : list string) :
  truthy_opt truthy_lista (cache_lookup w (chave_da_rota w r) st) = false →
  (buscar_url w (url_da_rota r) st).1 = Ok html →
  saints_list (BeautifulSoup w html) = Some urls →
  ∃ outs feitos st2,
    view w r esc st
    = (Ok (jsonify (Resultados (filter_None outs)) 200),
       guardar w (chave_da_rota w r) (filter_None outs) st2)
    ∧ corrida w urls (buscar_url w (url_da_rota r) st).2 feitos st2
    ∧ feitos.*1 ≡ₚ seq 0 (length urls)
    ∧ length outs = length urls
    ∧ (∀ i o, outs !! i = Some o ↔ (i, o) ∈ feitos)
    ∧ filter_None outs `sublist_of` outs
    ∧ length (filter_None outs) = (length urls - falhas outs)%nat
    ∧ ((∀ u, u ∈ urls → memo_fiel w u st) → outs = filho w <$> urls).
Proof.
  intros Hmiss Hb Hl. pose proof (view_busca r esc st Hmiss) as Hv.
  pose proof (λ u, buscar_url_memo_fiel (url_da_rota r) u st) as Hfiel.
  destruct (buscar_url w (url_da_rota r) st) as [ro st1]. simpl in *. subst ro.
  rewrite Hl in Hv. destruct Hv as (outs & Houts & Hv).
  destruct (fan_out urls esc st1) as (outs' & Houts' & HR & _ & _ & _ & Hdet).
  assert (outs' = outs) as -> by congruence.
  destruct (fan_out_corrida urls esc st1 outs Houts) as (feitos & Hrun & Hp & Hpos).
  pose proof (Forall2_length _ _ _ HR) as Hlen.
  exists outs, feitos, (executor_map (buscar_dados_santo w) urls esc st1).2.
  split; [exact Hv|]. split; [done|]. split; [done|]. split; [done|].
  split; [done|]. split; [apply filter_None_sublist|]. split.
  - by rewrite filter_None_length, Hlen.
  - intros Hu. apply Hdet. intros u Hin. apply Hfiel. auto.
Qed.

(** ** Cache hits *)

(** C5, amended.  When the store holds an unexpired, non-empty value under
    the key of the request, the route returns that value and the state is
    left as it was: the page fetcher is not called. *)
Theorem cache_hit_nao_busca (r : Rota) (esc : list nat) (st : Estado)
    (expira : Z) (x : option Santo) (v : Valor) :
  cache st !! chave_da_rota w r = Some (expira, x :: v) →
  expira = 0 ∨ time_now w < expira →
  ∃ resposta,
    requisicao (view w r esc) st = (Ok resposta, st)
    ∧ corpo resposta = Resultados (x :: v)
    ∧ status resposta = 200
    ∧ chamadas (requisicao (view w r esc) st).2 = chamadas st
    ∧ pedidos (requisicao (view w r esc) st).2 = pedidos st.
Proof.
  intros Hc Hexp.
  assert (Hl : cache_lookup w (chave_da_rota w r) st = Some (x :: v)).
  { unfold cache_lookup. rewrite Hc.
    destruct Hexp as [->|Hlt]; [done|].
    rewrite (proj2 (Z.ltb_lt _ _) Hlt). by rewrite orb_true_r. }
  rewrite requisicao_eq, (view_hit r esc st x v Hl). simpl. eauto 6.
Qed.

(** With the empty list stored under its key, a route answers as it does on
    the same state without that entry. *)
Lemma lista_vazia_como_sem_entrada (r : Rota) (esc : list nat) (st : Estado)
    (expira : Z) :
  cache st !! chave_da_rota w r = Some (expira, []) →
  let st0 := com_cache (delete (chave_da_rota w r) (cache st)) st in
  (view w r esc st).1 = (view w r esc st0).1
  ∧ com_cache ∅ (view w r esc st).2 = com_cache ∅ (view w r esc st0).2
  ∧ ∃ resto,
      chamadas (view w r esc st).2 = (chamadas st ++ url_da_rota r :: resto)%list.
Proof.
  intros Hc st0.
  assert (Hm : truthy_opt truthy_lista (cache_lookup w (chave_da_rota w r) st)
               = false).
  { unfold cache_lookup. rewrite Hc. by destruct (_ || _). }
  assert (Hm0 : truthy_opt truthy_lista (cache_lookup w (chave_da_rota w r) st0)
                = false).
  { unfold cache_lookup, st0. simpl. by rewrite lookup_delete_eq. }
  pose proof (view_busca r esc st Hm) as Hv.
  pose proof (view_busca r esc st0 Hm0) as Hv0.
  unfold st0 in Hv0. rewrite buscar_url_com_cache in Hv0.
  pose proof (buscar_url_chamadas (url_da_rota r) st) as Hch.
  destruct (buscar_url w (url_da_rota r) st) as [[html|e] st1]; simpl in *.
  - destruct (saints_list (BeautifulSoup w html)) as [urls|].
    + destruct Hv as (outs & Houts & Hv). destruct Hv0 as (outs0 & Houts0 & Hv0).
      rewrite fan_out_com_cache in Houts0, Hv0. simpl in *.
      assert (outs0 = outs) as -> by congruence.
      fold st0 in Hv0. rewrite Hv, Hv0. simpl. repeat split.
      destruct (fan_out urls esc st1) as (_ & _ & _ & _ & [l Hl] & _).
      exists l. rewrite Hl, Hch. by rewrite <- app_assoc.
    + fold st0 in Hv0. rewrite Hv, Hv0. simpl. repeat split.
      exists []. done.
  - fold st0 in Hv0. rewrite Hv, Hv0. simpl. repeat split.
    exists []. done.
Qed.

(** C10.  When the value stored under the key of the request is the empty
    list, the route does not serve it; the whole pipeline runs on that
    request.  The route's page is fetched: if that raises, the answer is
    the error response.  On a list page every link is fetched and parsed in
    a run over the links, and the answer is the successful outcomes in the
    order of the links.  On a page without a list the page itself is
    extracted.  The answer is what was resolved, and it is stored again
    under the key.  The response is the one the same state without the
    entry gives. *)
Theorem lista_vazia_nao_e_hit (r : Rota) (esc : list nat) (st : Estado)
    (expira : Z) :
  cache st !! chave_da_rota w r = Some (expira, []) →
  match buscar_url w (url_da_rota r) st with
  | (Raise e, st1) =>
      view w r esc st = (Ok (jsonify (Erro (str_exc e)) 500), st1)
  | (Ok html, st1) =>
      match saints_list (BeautifulSoup w html) with
      | Some urls =>
          ∃ outs feitos st2,
            corrida w urls st1 feitos st2
            ∧ feitos.*1 ≡ₚ seq 0 (length urls)
            ∧ length outs = length urls
            ∧ (∀ i o, outs !! i = Some o ↔ (i, o) ∈ feitos)
            ∧ view w r esc st
              = (Ok (jsonify (Resultados (filter_None outs)) 200),
                 guardar w (chave_da_rota w r) (filter_None outs) st2)
      | None =>
          view w r esc st
          = (Ok (jsonify (Resultados (sozinho r (BeautifulSoup w html))) 200),
             guardar w (chave_da_rota w r) (sozinho r (BeautifulSoup w html)) st1)
      end
  end
  ∧ (view w r esc st).1
    = (view w r esc (com_cache (delete (chave_da_rota w r) (cache st)) st)).1.
Proof.
  intros Hc. split; [|by destruct (lista_vazia_como_sem_entrada r esc st expira Hc)].
  assert (Hm : truthy_opt truthy_lista (cache_lookup w (chave_da_rota w r) st)
               = false).
  { unfold cache_lookup. rewrite Hc. by destruct (_ || _). }
  pose proof (view_busca r esc st Hm) as Hv.
  destruct (buscar_url w (url_da_rota r) st) as [[html|e] st1]; [|done].
  destruct (saints_list (BeautifulSoup w html)) as [urls|]; [|done].
  destruct Hv as (outs & Houts & Hv).
  destruct (fan_out urls esc st1) as (outs' & Houts' & HR & _).
  assert (outs' = outs) as -> by congruence.
  destruct (fan_out_corrida urls esc st1 outs Houts) as (feitos & Hrun & Hp & Hpos).
  exists outs, feitos, (executor_map (buscar_dados_santo w) urls esc st1).2.
  split; [done|]. split; [done|].
  split; [symmetry; by eapply Forall2_length|]. by split.
Qed.

(** ** Failure of the top-level fetch *)

(** C7.  When the fetch of the route's own page raises, the request is
    answered with a single error response: the message of the exception,
    status 500, no list of results; and the store is left as it was. *)
Theorem falha_da_busca_principal (r : Rota) (esc : list nat) (st : Estado)
    (e : Excecao) :
  truthy_opt truthy_lista (cache_lookup w (chave_da_rota w r) st) = false →
  (buscar_url w (url_da_rota r) st).1 = Raise e →
  ∃ resposta st',
    requisicao (view w r esc) st = (Ok resposta, st')
    ∧ corpo resposta = Erro (str_exc e)
    ∧ status resposta = 500
    ∧ cache st' = cache st.
Proof.
  intros Hmiss Hb. pose proof (view_busca r esc st Hmiss) as Hv.
  pose proof (buscar_url_cache (url_da_rota r) st) as Hc.
  destruct (buscar_url w (url_da_rota r) st) as [ro st1]. simpl in *. subst ro.
  rewrite requisicao_eq, Hv. simpl. eauto 6.
Qed.

(** ** Scenario A: three links, six paragraphs each *)

Lemma secao_1 (p : string) : nao_vazio p → secao [p] = PyStr.strip p.
Proof.
  unfold nao_vazio, secao. simpl. by destruct (PyStr.strip p).
Qed.

Lemma secao_2 (p q : string) :
  nao_vazio p → nao_vazio q →
  secao [p; q] = PyStr.strip p +:+ PyStr.blank_line +:+ PyStr.strip q.
Proof.
  unfold nao_vazio, secao. simpl.
  destruct (PyStr.strip p); [done|]. by destruct (PyStr.strip q).
Qed.

Lemma filho_seis_paragrafos (url : string) (ps : list string) :
  pagina_de_santo w url ps → length ps = 6%nat → Forall nao_vazio ps →
  ∃ s p1 p2 p3 p4 p5 p6,
    filho w url = Some s
    ∧ ps = [p1; p2; p3; p4; p5; p6]
    ∧ historia s = PyStr.strip p1 +:+ PyStr.blank_line +:+ PyStr.strip p2
    ∧ reflexao s = PyStr.strip p4
    ∧ oracao s = PyStr.strip p6.
Proof.
  intros (html & nm & img & Hs & Hnm & Himg & Hps) Hlen Hall.
  destruct ps as [|p1 [|p2 [|p3 [|p4 [|p5 [|p6 [|]]]]]]]; try done.
  unfold filho, extrair_info_santo. rewrite Hs, Hnm, Hps. simpl.
  rewrite Himg. simpl. eexists _, p1, p2, p3, p4, p5, p6.
  split; [reflexivity|]. split; [done|]. simpl.
  rewrite slice_sem_ultimos_4, slice_antepenultimo, slice_ultimo. simpl.
  repeat match goal with H : Forall _ (_ :: _) |- _ => inversion_clear H end.
  by rewrite secao_2, !secao_1.
Qed.

Lemma filter_None_Some (santos : list Santo) :
  filter_None (Some <$> santos) = Some <$> santos.
Proof.
  unfold filter_None. induction santos as [|s l IH]; [done|].
  csimpl. by f_equal.
Qed.

(** C2, amended.  An index page lists three links, and the origin serves at
    each of them a page with six non-blank paragraphs (the memo holding
    nothing stale for the links).  Then, on either route and for every
    schedule, the response carries exactly three records, in the order of
    the links, and in each of them the story is paragraphs 1 and 2 joined by
    a blank line, the reflection is paragraph 4 and the prayer is
    paragraph 6, each paragraph stripped of surrounding white space. *)
Theorem cenario_A_seis_paragrafos (r : Rota) (esc : list nat) (st : Estado)
    (html : string) (urls : list string) (paragrafos : string → list string) :
  truthy_opt truthy_lista (cache_lookup w (chave_da_rota w r) st) = false →
  (buscar_url w (url_da_rota r) st).1 = Ok html →
  saints_list (BeautifulSoup w html) = Some urls →
  length urls = 3%nat →
  (∀ u, u ∈ urls →
        memo_fiel w u st
        ∧ pagina_de_santo w u (paragrafos u)
        ∧ length (paragrafos u) = 6%nat
        ∧ Forall nao_vazio (paragrafos u)) →
  ∃ santos st',
    view w r esc st = (Ok (jsonify (Resultados (Some <$> santos)) 200), st')
    ∧ length santos = 3%nat
    ∧ Forall2 (λ u s, ∃ p1 p2 p3 p4 p5 p6,
                 paragrafos u = [p1; p2; p3; p4; p5; p6]
                 ∧ historia s
                   = PyStr.strip p1 +:+ PyStr.blank_line +:+ PyStr.strip p2
                 ∧ reflexao s = PyStr.strip p4
                 ∧ oracao s = PyStr.strip p6)
              urls santos.
Proof.
  intros Hmiss Hb Hl Hlen Hpag. pose proof (view_busca r esc st Hmiss) as Hv.
  pose proof (λ u, buscar_url_memo_fiel (url_da_rota r) u st) as Hfiel.
  destruct (buscar_url w (url_da_rota r) st) as [ro st1]. simpl in Hb. subst ro.
  rewrite Hl in Hv. destruct Hv as (outs & Houts & Hv).
  destruct (fan_out urls esc st1) as (outs' & Houts' & _ & _ & _ & _ & Hdet).
  assert (outs' = outs) as -> by congruence.
  rewrite Hdet in Hv by (intros u Hu; apply Hfiel, Hpag, Hu).
  assert (Hsantos : ∃ santos,
             filho w <$> urls = Some <$> santos
             ∧ Forall2 (λ u s, ∃ p1 p2 p3 p4 p5 p6,
                          paragrafos u = [p1; p2; p3; p4; p5; p6]
                          ∧ historia s = PyStr.strip p1 +:+ PyStr.blank_line
                                           +:+ PyStr.strip p2
                          ∧ reflexao s = PyStr.strip p4
                          ∧ oracao s = PyStr.strip p6)
                       urls santos).
  { clear Hv Hdet Hl Hlen Houts Houts'.
    induction urls as [|u urls IH]; [by exists []|].
    destruct IH as (santos & Heq & HF).
    { intros u' Hu'. apply Hpag. by right. }
    destruct (Hpag u) as (_ & Hp & Hlen & Hall); [by left|].
    destruct (filho_seis_paragrafos u _ Hp Hlen Hall)
      as (s & p1 & p2 & p3 & p4 & p5 & p6 & Hs & Hps & Hh & Hr & Ho).
    exists (s :: santos). csimpl. rewrite Hs, Heq. split; [done|].
    constructor; [|done]. eauto 10. }
  destruct Hsantos as (santos & Heq & HF).
  rewrite Heq, filter_None_Some in Hv.
  eexists santos, _. split; [exact Hv|]. split; [|done].
  by rewrite <- (Forall2_length _ _ _ HF).
Qed.

(** ** The daily job *)

Lemma pre_carregar_total (hoje : Data) (url : string) (esc : list nat)
    (santos : option Valor) (st : Estado) :
  ∃ santos' resto,
    (pre_carregar w hoje url esc santos st).1 = Ok santos'
    ∧ chamadas (pre_carregar w hoje url esc santos st).2
      = (chamadas st ++ url :: resto)%list.
Proof.
  unfold pre_carregar. desdobrar.
  pose proof (buscar_url_chamadas url st) as Hch.
  destruct (buscar_url w url st) as [[html|e] st1]; simpl in *.
  - destruct (saints_list (BeautifulSoup w html)) as [urls|].
    + destruct (fan_out urls esc st1) as (outs & Houts & _ & _ & [l Hl] & _).
      destruct (executor_map _ urls esc st1) as [ro st2]. simpl in *. subst ro.
      simpl. eexists _, l. split; [done|]. simpl.
      by rewrite Hl, Hch, <- app_assoc.
    + simpl. destruct (truthy_opt truthy_santo _); simpl.
      * eexists _, []. by rewrite <- Hch.
      * destruct santos as [v|]; simpl; eexists _, []; by rewrite <- Hch.
  - eexists _, []. by rewrite <- Hch.
Qed.

(** The daily job always returns normally, whatever the network and the
    pages do, and it calls the page fetcher for both canonical pages, the
    default one and then the one of the current day and month: a failure on
    the first does not keep the second from being attempted. *)
Theorem limpar_e_atualizar_cache_isola_falhas (esc : string → list nat)
    (st : Estado) :
  ∃ st' resto1 resto2,
    limpar_e_atualizar_cache w esc st = (Ok (), st')
    ∧ chamadas st'
      = (chamadas st ++ url_inicio :: resto1
           ++ url_data (day (datetime_now w)) (month (datetime_now w)) :: resto2)%list.
Proof.
  unfold limpar_e_atualizar_cache, percorrer, cache_clear, buscar_url_cache_clear.
  desdobrar.
  set (st0 := com_memo [] (com_cache ∅ st)).
  destruct (pre_carregar_total (datetime_now w) url_inicio (esc url_inicio)
              None st0) as (s1 & l1 & H1 & Hc1).
  destruct (pre_carregar w _ url_inicio _ None st0) as [r1 st1].
  simpl in H1, Hc1. subst r1.
  set (u2 := url_data (day (datetime_now w)) (month (datetime_now w))) in *.
  destruct (pre_carregar_total (datetime_now w) u2 (esc u2) s1 st1)
    as (s2 & l2 & H2 & Hc2).
  destruct (pre_carregar w _ u2 _ s1 st1) as [r2 st2].
  simpl in H2, Hc2. subst r2.
  exists st2, l1, l2. split; [done|].
  rewrite Hc2, Hc1. simpl. by rewrite <- app_assoc.
Qed.

(** ** The cache-status header and the page without a saint *)

Lemma view_jsonify (r : Rota) (esc : list nat) (st : Estado) :
  ∃ c codigo, (view w r esc st).1 = Ok (jsonify c codigo).
Proof.
  destruct (truthy_opt truthy_lista (cache_lookup w (chave_da_rota w r) st))
    eqn:Hm.
  - destruct (cache_lookup w (chave_da_rota w r) st) as [[|x v]|] eqn:Hc;
      try done. rewrite (view_hit r esc st x v Hc). simpl. eauto.
  - pose proof (view_busca r esc st Hm) as Hv.
    destruct (buscar_url w (url_da_rota r) st) as [[html|e] st1].
    + destruct (saints_list (BeautifulSoup w html)) as [urls|].
      * destruct Hv as (outs & _ & ->). simpl. eauto.
      * rewrite Hv. simpl. eauto.
    + rewrite Hv. simpl. eauto.
Qed.

(** Whatever the lookup gave, the header says [MISS]. *)
Lemma x_status_cache_MISS (r : Rota) (esc : list nat) (st : Estado) :
  ∃ resposta,
    (requisicao (view w r esc) st).1 = Ok resposta
    ∧ x_status_cache resposta = Some "MISS".
Proof.
  destruct (view_jsonify r esc st) as (c & codigo & Hv).
  rewrite requisicao_eq. destruct (view w r esc st) as [ro st'].
  simpl in Hv. subst ro. simpl. eauto.
Qed.

(** A page without a list from which nothing can be extracted: the
    day/month route answers with the empty list, the default route with a
    list holding [None]. *)
Lemma pagina_sem_lista_sem_santo (r : Rota) (esc : list nat) (st : Estado)
    (html : string) :
  truthy_opt truthy_lista (cache_lookup w (chave_da_rota w r) st) = false →
  (buscar_url w (url_da_rota r) st).1 = Ok html →
  saints_list (BeautifulSoup w html) = None →
  extrair_info_santo (BeautifulSoup w html) = None →
  (view w r esc st).1
  = Ok (jsonify (Resultados match r with
                            | RotaInicio => [None]
                            | RotaData _ _ => []
                            end) 200).
Proof.
  intros Hmiss Hb Hl He. pose proof (view_busca r esc st Hmiss) as Hv.
  destruct (buscar_url w (url_da_rota r) st) as [ro st1]. simpl in Hb. subst ro.
  rewrite Hl in Hv. rewrite Hv. unfold sozinho. rewrite He. by destruct r.
Qed.

(** ** One iteration of the daily job *)

Lemma contem_append_r (sub s t : string) :
  contem sub t = true → contem sub (s +:+ t) = true.
Proof.
  intros Ht. induction s as [|c s IH]; [done|].
  simpl. rewrite IH. apply orb_true_r.
Qed.

Lemma prefix_append (sub t : string) : String.prefix sub (sub +:+ t) = true.
Proof.
  induction sub as [|c sub IH]; simpl; [by destruct t|].
  by destruct (ascii_dec c c).
Qed.

Lemma contem_prefix (sub s : string) :
  String.prefix sub s = true → contem sub s = true.
Proof. intros H. destruct s; cbn [contem]; by rewrite H. Qed.

Lemma contem_day_url_data (dia mes : Z) : contem "day" (url_data dia mes) = true.
Proof.
  unfold url_data. apply contem_append_r.
  apply (contem_append_r "day" "?").
  apply contem_prefix, (prefix_append "day").
Qed.

Lemma append_assoc (a b c : string) : (a +:+ b) +:+ c = a +:+ b +:+ c.
Proof.
  induction a as [|x a IH]; [done|].
  change (String x ((a +:+ b) +:+ c) = String x (a +:+ b +:+ c)).
  by rewrite IH.
Qed.

(** The job stores under the key the route reads. *)
Lemma chave_do_job_da_rota (r : Rota) :
  rota_do_dia w r →
  chave_do_job w (datetime_now w) (url_da_rota r) = chave_da_rota w r.
Proof.
  intros [->| ->]; unfold chave_do_job, url_da_rota, chave_da_rota.
  - by replace (contem "day" url_inicio) with false by (by vm_compute).
  - rewrite contem_day_url_data. cbn [negb].
    unfold criar_chave_cache, string_chave. f_equal.
    cbn [sorted foldr map app PyStr.join str]. by rewrite !append_assoc.
Qed.

Lemma pre_carregar_casos (hoje : Data) (url : string) (esc : list nat)
    (santos : option Valor) (st : Estado) :
  match buscar_url w url st with
  | (Raise e, st1) => pre_carregar w hoje url esc santos st = (Ok santos, st1)
  | (Ok html, st1) =>
      match saints_list (BeautifulSoup w html) with
      | Some urls =>
          ∃ outs,
            (executor_map (buscar_dados_santo w) urls esc st1).1 = Ok outs
            ∧ pre_carregar w hoje url esc santos st
              = (Ok (Some (filter_None outs)),
                 guardar w (chave_do_job w hoje url) (filter_None outs)
                   (executor_map (buscar_dados_santo w) urls esc st1).2)
      | None =>
          match (if truthy_opt truthy_santo
                      (extrair_info_santo (BeautifulSoup w html))
                 then Some [extrair_info_santo (BeautifulSoup w html)]
                 else santos) with
          | Some v =>
              pre_carregar w hoje url esc santos st
              = (Ok (Some v), guardar w (chave_do_job w hoje url) v st1)
          | None => pre_carregar w hoje url esc santos st = (Ok None, st1)
          end
      end
  end.
Proof.
  unfold pre_carregar, chave_do_job, guardar. desdobrar.
  destruct (buscar_url w url st) as [[html|e] st1]; simpl; [|done].
  destruct (saints_list (BeautifulSoup w html)) as [urls|]; simpl.
  - destruct (fan_out urls esc st1) as (outs & Houts & _).
    exists outs. split; [done|].
    destruct (executor_map _ urls esc st1) as [ro st2]. simpl in *. by subst ro.
  - destruct (truthy_opt truthy_santo _); simpl; [done|].
    by destruct santos.
Qed.

Lemma cache_lookup_guardar (chave : string) (v : Valor) (st : Estado) :
  cache_lookup w chave (guardar w chave v st) = Some v.
Proof.
  unfold cache_lookup, guardar. simpl. rewrite lookup_insert_eq.
  assert ((time_now w <? time_now w + CACHE_DEFAULT_TIMEOUT) = true) as ->.
  { apply Z.ltb_lt. unfold CACHE_DEFAULT_TIMEOUT. lia. }
  by rewrite orb_true_r.
Qed.

(** ** Invariants of the page fetcher, lifted to requests and to the job *)

Lemma fan_out_inv (I : Estado → Prop) urls esc st :
  (∀ url st, I st → I (buscar_url w url st).2) →
  I st → I (executor_map (buscar_dados_santo w) urls esc st).2.
Proof.
  intros HI Hst.
  destruct (executor_map_spec (buscar_dados_santo w) I (λ _ _, True)
              urls esc st) as (_ & _ & _ & H); [|done|done].
  intros url s Hs. destruct (buscar_dados_santo_Ok url s) as [o Ho].
  split; [eauto|]. rewrite buscar_dados_santo_eq. by apply HI.
Qed.

Lemma pre_carregar_inv (I : Estado → Prop) hoje url esc santos st :
  (∀ url st, I st → I (buscar_url w url st).2) →
  (∀ v st, I st → I (guardar w (chave_do_job w hoje url) v st)) →
  I st → I (pre_carregar w hoje url esc santos st).2.
Proof.
  intros HI Hc Hst.
  pose proof (pre_carregar_casos hoje url esc santos st) as Hcasos.
  pose proof (HI url st Hst) as H1.
  destruct (buscar_url w url st) as [[html|e] st1]; simpl in H1.
  - destruct (saints_list (BeautifulSoup w html)) as [urls|].
    + destruct Hcasos as (outs & _ & ->). simpl. apply Hc.
      by apply fan_out_inv.
    + destruct (if truthy_opt truthy_santo _ then _ else santos);
        rewrite Hcasos; simpl; [by apply Hc|done].
  - by rewrite Hcasos.
Qed.

Lemma view_inv (I : Estado → Prop) r esc st :
  (∀ url st, I st → I (buscar_url w url st).2) →
  (∀ v st, I st → I (guardar w (chave_da_rota w r) v st)) →
  I st → I (view w r esc st).2.
Proof.
  intros HI Hc Hst.
  destruct (truthy_opt truthy_lista (cache_lookup w (chave_da_rota w r) st))
    eqn:Hm.
  - destruct (cache_lookup w (chave_da_rota w r) st) as [[|x v]|] eqn:Hl;
      try done. by rewrite (view_hit r esc st x v Hl).
  - pose proof (view_busca r esc st Hm) as Hv.
    pose proof (HI (url_da_rota r) st Hst) as H1.
    destruct (buscar_url w (url_da_rota r) st) as [[html|e] st1]; simpl in H1.
    + destruct (saints_list (BeautifulSoup w html)) as [urls|].
      * destruct Hv as (outs & _ & ->). simpl. apply Hc. by apply fan_out_inv.
      * rewrite Hv. simpl. by apply Hc.
    + by rewrite Hv.
Qed.

Lemma limpar_e_atualizar_cache_inv (I : Estado → Prop) esc st :
  (∀ url st, I st → I (buscar_url w url st).2) →
  (∀ r v st, rota_do_dia w r → I st → I (guardar w (chave_da_rota w r) v st)) →
  I (com_memo [] (com_cache ∅ st)) →
  I (limpar_e_atualizar_cache w esc st).2.
Proof.
  intros HI Hg H0.
  assert (Hc1 : ∀ v st, I st →
            I (guardar w (chave_do_job w (datetime_now w) url_inicio) v st)).
  { intros v s.
    pose proof (chave_do_job_da_rota RotaInicio ltac:(by left)) as E.
    change (url_da_rota RotaInicio) with url_inicio in E. rewrite E.
    apply Hg. by left. }
  assert (Hc2 : ∀ v st, I st →
            I (guardar w (chave_do_job w (datetime_now w)
                            (url_data (day (datetime_now w))
                                      (month (datetime_now w)))) v st)).
  { intros v s.
    pose proof (chave_do_job_da_rota
                  (RotaData (day (datetime_now w)) (month (datetime_now w)))
                  ltac:(by right)) as E.
    change (url_da_rota (RotaData ?d ?m)) with (url_data d m) in E. rewrite E.
    apply Hg. by right. }
  unfold limpar_e_atualizar_cache, percorrer, cache_clear, buscar_url_cache_clear.
  desdobrar.
  set (st0 := com_memo [] (com_cache ∅ st)) in *.
  pose proof (pre_carregar_inv I (datetime_now w) url_inicio (esc url_inicio)
                None st0 HI Hc1 H0) as H1.
  destruct (pre_carregar_total (datetime_now w) url_inicio (esc url_inicio)
              None st0) as (s1 & _ & Hs1 & _).
  destruct (pre_carregar w _ url_inicio _ None st0) as [r1 st1].
  simpl in *. subst r1.
  set (u2 := url_data (day (datetime_now w)) (month (datetime_now w))) in *.
  pose proof (pre_carregar_inv I (datetime_now w) u2 (esc u2) s1 st1 HI Hc2 H1)
    as H2.
  destruct (pre_carregar_total (datetime_now w) u2 (esc u2) s1 st1)
    as (s2 & _ & Hs2 & _).
  destruct (pre_carregar w _ u2 _ s1 st1) as [r2 st2].
  simpl in *. by subst r2.
Qed.

(** *** The bounds of the memo *)

Lemma memo_sem_sublist url m : memo_sem url m `sublist_of` m.
Proof.
  induction m as [|kv m IH]; [done|]. unfold memo_sem. simpl.
  destruct (negb _); by constructor.
Qed.

Lemma memo_sem_sem url m : url ∉ (memo_sem url m).*1.
Proof.
  induction m as [|[k c] m IH]; [by apply not_elem_of_nil|].
  unfold memo_sem. simpl. case_bool_decide as Hk; simpl; [done|].
  apply not_elem_of_cons. split; [congruence|done].
Qed.

Lemma memo_sem_length url c m :
  memo_get url m = Some c → (length (memo_sem url m) < length m)%nat.
Proof.
  induction m as [|[k c'] m IH]; [done|]. simpl.
  destruct (decide (k = url)) as [->|Hne].
  - intros _. rewrite bool_decide_eq_true_2 by done. simpl.
    pose proof (sublist_length _ _ (memo_sem_sublist url m)). unfold memo_sem in *.
    lia.
  - intros Hm. rewrite bool_decide_eq_false_2 by done. simpl.
    specialize (IH Hm). unfold memo_sem in *. lia.
Qed.

Lemma memo_hit_ok url c c' m :
  NoDup m.*1 → (length m ≤ maxsize)%nat → memo_get url m = Some c' →
  NoDup (memo_hit url c m).*1 ∧ (length (memo_hit url c m) ≤ maxsize)%nat.
Proof.
  intros Hnd Hlen Hm. unfold memo_hit. split.
  - csimpl. constructor; [apply memo_sem_sem|].
    apply (sublist_NoDup _ m.*1); [exact Hnd|].
    apply fmap_sublist, memo_sem_sublist.
  - apply memo_sem_length in Hm. simpl. lia.
Qed.

Lemma memo_put_ok url c m :
  NoDup m.*1 →
  NoDup (memo_put url c m).*1 ∧ (length (memo_put url c m) ≤ maxsize)%nat.
Proof.
  intros Hnd. unfold memo_put. split.
  - apply (sublist_NoDup _ ((url, c) :: memo_sem url m).*1).
    + csimpl. constructor; [apply memo_sem_sem|].
      apply (sublist_NoDup _ m.*1); [exact Hnd|].
      apply fmap_sublist, memo_sem_sublist.
    + apply fmap_sublist, sublist_take.
  - rewrite length_take. lia.
Qed.

Lemma buscar_url_memo_ok url st : memo_ok st → memo_ok (buscar_url w url st).2.
Proof.
  unfold memo_ok, buscar_url. intros [Hnd Hlen].
  cbn [memo com_chamada com_pedido].
  destruct (memo_get url (memo st)) as [c|] eqn:Hm.
  - cbn [snd memo com_memo]. by eapply memo_hit_ok.
  - destruct (sessao_get w url) as [c|e]; cbn [snd memo com_memo com_pedido];
      [|done].
    by apply memo_put_ok.
Qed.

(** X4.  The memo of the page fetcher stays within its bounds through every
    request to a data route: one entry per address and at most 128 entries. *)
Theorem requisicao_memo_ok (r : Rota) (esc : list nat) (st : Estado) :
  memo_ok st → memo_ok (requisicao (view w r esc) st).2.
Proof.
  intros Hst. rewrite requisicao_eq.
  pose proof (view_inv memo_ok r esc st buscar_url_memo_ok ltac:(done) Hst) as H.
  by destruct (view w r esc st) as [[resposta|e] st'].
Qed.

Lemma memo_fiel_vazio u st : memo_fiel w u (com_memo [] st).
Proof. by intros c. Qed.

(** X5.  After the daily job, whatever the state before it: the store holds
    nothing under any key other than the keys of the two routes the job
    warms, and the memo holds only bodies the origin serves, one entry per
    address and at most 128 entries. *)
Theorem limpar_e_atualizar_cache_renova (esc : string → list nat)
    (st : Estado) :
  let st' := (limpar_e_atualizar_cache w esc st).2 in
  (∀ chave,
     chave ≠ chave_da_rota w RotaInicio →
     chave ≠ chave_da_rota w (RotaData (day (datetime_now w))
                                        (month (datetime_now w))) →
     cache st' !! chave = None)
  ∧ (∀ url, memo_fiel w url st')
  ∧ memo_ok st'.
Proof.
  intros st'. split; [|split].
  - intros chave H1 H2.
    apply (limpar_e_atualizar_cache_inv (λ s, cache s !! chave = None)).
    + intros url s. by rewrite buscar_url_cache.
    + intros r v s [->| ->] Hs; simpl; by rewrite lookup_insert_ne.
    + done.
  - intros url. apply (limpar_e_atualizar_cache_inv (memo_fiel w url)).
    + intros u s. apply buscar_url_memo_fiel.
    + done.
    + apply memo_fiel_vazio.
  - apply (limpar_e_atualizar_cache_inv memo_ok).
    + apply buscar_url_memo_ok.
    + done.
    + split; [constructor|simpl; lia].
Qed.

(** ** Clearing the caches *)

Lemma buscar_url_pedidos url st :
  pedidos st `prefix_of` pedidos (buscar_url w url st).2.
Proof.
  unfold buscar_url. destruct (memo_get url _); simpl; [done|].
  destruct (sessao_get w url); simpl; by apply prefix_app_r.
Qed.

Lemma view_pedidos r esc st : pedidos st `prefix_of` pedidos (view w r esc st).2.
Proof.
  apply (view_inv (λ s, pedidos st `prefix_of` pedidos s)); [|done..].
  intros url s Hs. etrans; [exact Hs|]. apply buscar_url_pedidos.
Qed.

(** X1.  The route that clears the caches always answers with its message
    and status 200 and leaves both the store and the memo empty; a second
    call changes nothing more; and the next request to a data route sends
    a request for the route's page to the origin, whatever was stored or
    memoised before. *)
Theorem limpar_cache_esvazia (st : Estado) :
  ∃ st',
    limpar_cache st
    = (Ok (jsonify (Mensagem "Todos os caches foram limpos com sucesso") 200), st')
    ∧ cache st' = ∅ ∧ memo st' = []
    ∧ chamadas st' = chamadas st ∧ pedidos st' = pedidos st
    ∧ (limpar_cache st').2 = st'
    ∧ ∀ r esc, ∃ resto,
        pedidos (view w r esc st').2
        = (pedidos st ++ url_da_rota r :: resto)%list.
Proof.
  eexists. split; [reflexivity|]. repeat split.
  intros r esc.
  set (st' := com_memo [] (com_cache ∅ st)).
  assert (Hm : truthy_opt truthy_lista (cache_lookup w (chave_da_rota w r) st')
               = false) by done.
  pose proof (view_busca r esc st' Hm) as Hv.
  assert (Hp : pedidos (buscar_url w (url_da_rota r) st').2
               = (pedidos st ++ [url_da_rota r])%list).
  { unfold buscar_url. simpl. by destruct (sessao_get w (url_da_rota r)). }
  destruct (buscar_url w (url_da_rota r) st') as [[html|e] st1]; simpl in Hp.
  - destruct (saints_list (BeautifulSoup w html)) as [urls|].
    + destruct Hv as (outs & _ & Hv). rewrite Hv. simpl.
      destruct (fan_out_inv (λ s, pedidos st1 `prefix_of` pedidos s) urls esc st1)
        as [l Hl]; [|done|].
      { intros url s Hs. etrans; [exact Hs|]. apply buscar_url_pedidos. }
      exists l. by rewrite Hl, Hp, <- app_assoc.
    + rewrite Hv. simpl. exists []. by rewrite Hp.
  - rewrite Hv. simpl. exists []. by rewrite Hp.
Qed.

(** ** What the memo of the page fetcher keeps *)

Lemma memo_get_take_mono url c n n' m :
  memo_get url (take n m) = Some c → (n ≤ n')%nat →
  memo_get url (take n' m) = Some c.
Proof.
  revert n n'. induction m as [|[k c'] m IH]; intros [|n] [|n'] H Hle;
    simpl in *; try done; try lia.
  destruct (decide (k = url)); [done|]. apply (IH n); [done|lia].
Qed.

Lemma memo_get_take_sem url v c n m :
  v ≠ url → memo_get url (take n m) = Some c →
  memo_get url (take n (memo_sem v m)) = Some c.
Proof.
  intros Hne. revert n. induction m as [|[k c'] m IH]; intros [|n] H;
    simpl in *; try done.
  destruct (decide (k = url)) as [->|Hk].
  - rewrite bool_decide_eq_false_2 by done. simpl.
    by rewrite decide_True by done.
  - specialize (IH n H). case_bool_decide; simpl.
    + fold (memo_sem v m). by apply (memo_get_take_mono _ _ n); [|lia].
    + by rewrite decide_False by done.
Qed.

Lemma buscar_url_recente url c st :
  (buscar_url w url st).1 = Ok c →
  memo_get url (take 1 (memo (buscar_url w url st).2)) = Some c.
Proof.
  unfold buscar_url. cbn [memo com_chamada].
  destruct (memo_get url (memo st)) as [c'|].
  - intros [= ->]. simpl. by rewrite decide_True.
  - destruct (sessao_get w url) as [c'|e]; [|done].
    intros [= ->]. simpl. by rewrite decide_True.
Qed.

(** ** The local variable of the daily job *)

Lemma limpar_e_atualizar_cache_eq (esc : string → list nat) (st : Estado) :
  let hoje := datetime_now w in
  let u2 := url_data (day hoje) (month hoje) in
  let p1 := pre_carregar w hoje url_inicio (esc url_inicio) None
              (com_memo [] (com_cache ∅ st)) in
  ∀ s1, p1.1 = Ok s1 →
    (limpar_e_atualizar_cache w esc st).2
    = (pre_carregar w hoje u2 (esc u2) s1 p1.2).2.
Proof.
  intros hoje u2 p1 s1 Hs1.
  unfold limpar_e_atualizar_cache, percorrer, cache_clear, buscar_url_cache_clear.
  desdobrar. fold hoje u2. fold p1.
  destruct p1 as [r1 st1]. simpl in Hs1. subst r1. cbn [snd].
  destruct (pre_carregar_total hoje u2 (esc u2) s1 st1) as (s2 & _ & Hs2 & _).
  destruct (pre_carregar w hoje u2 (esc u2) s1 st1) as [r2 st2].
  simpl in Hs2. by subst r2.
Qed.

Lemma limpar_e_atualizar_cache_Ok (esc : string → list nat) (st : Estado) :
  (limpar_e_atualizar_cache w esc st).1 = Ok ().
Proof.
  unfold limpar_e_atualizar_cache, percorrer, cache_clear, buscar_url_cache_clear.
  desdobrar.
  set (st0 := com_memo [] (com_cache ∅ st)).
  destruct (pre_carregar_total (datetime_now w) url_inicio (esc url_inicio)
              None st0) as (s1 & _ & H1 & _).
  destruct (pre_carregar w _ url_inicio _ None st0) as [r1 st1].
  simpl in H1. subst r1.
  set (u2 := url_data (day (datetime_now w)) (month (datetime_now w))).
  destruct (pre_carregar_total (datetime_now w) u2 (esc u2) s1 st1)
    as (s2 & _ & H2 & _).
  destruct (pre_carregar w _ u2 _ s1 st1) as [r2 st2].
  simpl in H2. by subst r2.
Qed.

Lemma memo_fiel_guardar url chave v st :
  memo_fiel w url st → memo_fiel w url (guardar w chave v st).
Proof. done. Qed.

(** X8.  The default page is a list page and the page of the current day
    and month has neither a list nor a saint that can be extracted.  Then
    the daily job stores, under the key of the day/month route, the records
    it resolved for the default page: the value of the first iteration is
    still in the local variable when the second one stores. *)
Theorem limpar_e_atualizar_cache_reusa_santos (esc : string → list nat)
    (st : Estado) (html1 html2 : string) (urls : list string) :
  let dia := day (datetime_now w) in
  let mes := month (datetime_now w) in
  sessao_get w url_inicio = Ok html1 →
  saints_list (BeautifulSoup w html1) = Some urls →
  sessao_get w (url_data dia mes) = Ok html2 →
  saints_list (BeautifulSoup w html2) = None →
  extrair_info_santo (BeautifulSoup w html2) = None →
  cache_lookup w (chave_da_rota w (RotaData dia mes))
    (limpar_e_atualizar_cache w esc st).2
  = Some (filter_None (filho w <$> urls)).
Proof.
  intros dia mes Hg1 Hl1 Hg2 Hl2 He2.
  set (st0 := com_memo [] (com_cache ∅ st)).
  pose proof (pre_carregar_casos (datetime_now w) url_inicio (esc url_inicio)
                None st0) as H1.
  pose proof (buscar_url_fiel url_inicio st0 (memo_fiel_vazio _ _)) as Hb1.
  pose proof (λ u, buscar_url_memo_fiel url_inicio u st0 (memo_fiel_vazio _ _))
    as Hf1.
  destruct (buscar_url w url_inicio st0) as [ro st1]. simpl in Hb1, Hf1.
  subst ro. rewrite Hg1, Hl1 in H1. destruct H1 as (outs & Houts & H1).
  destruct (fan_out urls (esc url_inicio) st1)
    as (outs' & Houts' & _ & _ & _ & Hf2 & Hdet).
  assert (outs' = outs) as -> by congruence.
  rewrite Hdet in H1 by auto. clear Hdet Houts Houts'.
  rewrite (limpar_e_atualizar_cache_eq esc st (Some (filter_None (filho w <$> urls))))
    by (fold st0; by rewrite H1).
  fold st0. rewrite H1. cbn [snd]. fold dia mes.
  set (st2 := guardar w _ _ _).
  assert (Hfiel : ∀ u, memo_fiel w u st2).
  { intros u. apply memo_fiel_guardar, Hf2, Hf1. }
  pose proof (pre_carregar_casos (datetime_now w) (url_data dia mes)
                (esc (url_data dia mes))
                (Some (filter_None (filho w <$> urls))) st2) as H2.
  pose proof (buscar_url_fiel (url_data dia mes) st2 (Hfiel _)) as Hb2.
  destruct (buscar_url w (url_data dia mes) st2) as [ro st3]. simpl in Hb2.
  subst ro. rewrite Hg2, Hl2, He2 in H2. simpl in H2. rewrite H2. cbn [snd].
  pose proof (chave_do_job_da_rota (RotaData dia mes) ltac:(by right)) as E.
  change (url_da_rota (RotaData dia mes)) with (url_data dia mes) in E.
  rewrite E. apply cache_lookup_guardar.
Qed.

(** X9.  Neither the default page nor the page of the current day and month
    has a list or a saint that can be extracted.  Then the daily job stores
    nothing: it returns normally with the store empty. *)
Theorem limpar_e_atualizar_cache_sem_santos (esc : string → list nat)
    (st : Estado) (html1 html2 : string) :
  let dia := day (datetime_now w) in
  let mes := month (datetime_now w) in
  sessao_get w url_inicio = Ok html1 →
  saints_list (BeautifulSoup w html1) = None →
  extrair_info_santo (BeautifulSoup w html1) = None →
  sessao_get w (url_data dia mes) = Ok html2 →
  saints_list (BeautifulSoup w html2) = None →
  extrair_info_santo (BeautifulSoup w html2) = None →
  (limpar_e_atualizar_cache w esc st).1 = Ok ()
  ∧ cache (limpar_e_atualizar_cache w esc st).2 = ∅.
Proof.
  intros dia mes Hg1 Hl1 He1 Hg2 Hl2 He2.
  split.
  { apply limpar_e_atualizar_cache_Ok. }
  set (st0 := com_memo [] (com_cache ∅ st)).
  pose proof (pre_carregar_casos (datetime_now w) url_inicio (esc url_inicio)
                None st0) as H1.
  pose proof (buscar_url_fiel url_inicio st0 (memo_fiel_vazio _ _)) as Hb1.
  pose proof (λ u, buscar_url_memo_fiel url_inicio u st0 (memo_fiel_vazio _ _))
    as Hf1.
  pose proof (buscar_url_cache url_inicio st0) as Hc1.
  destruct (buscar_url w url_inicio st0) as [ro st1]. simpl in Hb1, Hf1, Hc1.
  subst ro. rewrite Hg1, Hl1, He1 in H1. simpl in H1.
  rewrite (limpar_e_atualizar_cache_eq esc st None) by (fold st0; by rewrite H1).
  fold st0. rewrite H1. cbn [snd]. fold dia mes.
  pose proof (pre_carregar_casos (datetime_now w) (url_data dia mes)
                (esc (url_data dia mes)) None st1) as H2.
  pose proof (buscar_url_fiel (url_data dia mes) st1 (Hf1 _)) as Hb2.
  pose proof (buscar_url_cache (url_data dia mes) st1) as Hc2.
  destruct (buscar_url w (url_data dia mes) st1) as [ro st3]. simpl in *.
  subst ro. rewrite Hg2, Hl2, He2 in H2. simpl in H2. rewrite H2. simpl.
  by rewrite Hc2, Hc1.
Qed.

(** ** Every link is fetched once *)

Lemma corrida_chamadas urls st feitos st2 :
  corrida w urls st feitos st2 →
  chamadas st2 = (chamadas st ++ omap (λ i, urls !! i) feitos.*1)%list.
Proof.
  induction 1 as [st|st i url o st1 feitos st2 Hi Hb _ IH].
  - by rewrite app_nil_r.
  - pose proof (buscar_dados_santo_chamadas url st) as Hch.
    rewrite Hb in Hch. simpl in Hch.
    rewrite IH, Hch. csimpl. rewrite Hi. csimpl. by rewrite <- app_assoc.
Qed.

Lemma omap_lookup_seq {A} (l : list A) :
  omap (λ i, l !! i) (seq 0 (length l)) = l.
Proof.
  induction l as [|x l IH] using rev_ind; [done|].
  rewrite length_app. simpl. rewrite Nat.add_1_r, seq_S, omap_app. simpl.
  rewrite list_lookup_middle by done. simpl. f_equal.
  rewrite <- IH at 2. apply list_omap_ext, Forall2_same_length_lookup.
  split; [done|]. intros i j j' Hj Hj'.
  assert (j' = j) as -> by congruence.
  apply lookup_seq in Hj as [-> ?]. by rewrite lookup_app_l.
Qed.

(** X10.  On a list page a data route calls the page fetcher once for its
    own page and then exactly once for each link, in some order. *)
Theorem fan_out_busca_cada_link_uma_vez (r : Rota) (esc : list nat)
    (st : Estado) (html : string) (urls : list string) :
  truthy_opt truthy_lista (cache_lookup w (chave_da_rota w r) st) = false →
  (buscar_url w (url_da_rota r) st).1 = Ok html →
  saints_list (BeautifulSoup w html) = Some urls →
  ∃ us,
    chamadas (view w r esc st).2 = (chamadas st ++ url_da_rota r :: us)%list
    ∧ us ≡ₚ urls.
Proof.
  intros Hmiss Hb Hl. pose proof (view_busca r esc st Hmiss) as Hv.
  pose proof (buscar_url_chamadas (url_da_rota r) st) as Hch.
  destruct (buscar_url w (url_da_rota r) st) as [ro st1]. simpl in *. subst ro.
  rewrite Hl in Hv. destruct Hv as (outs & Houts & ->).
  destruct (fan_out_corrida urls esc st1 outs Houts) as (feitos & Hrun & Hp & _).
  apply corrida_chamadas in Hrun.
  exists (omap (λ i, urls !! i) feitos.*1). split.
  - simpl. by rewrite Hrun, Hch, <- app_assoc.
  - rewrite Hp. by rewrite omap_lookup_seq.
Qed.

(** ** What the day/month route computes *)

Lemma filter_None_Forall (outs : Valor) : Forall is_Some (filter_None outs).
Proof.
  unfold filter_None. induction outs as [|[s|] outs IH]; simpl; [done| |done].
  constructor; [by eexists|done].
Qed.

(** X11.  When the day/month route does not answer from the store, a list of
    results it answers with holds records only, never [None]. *)
Theorem data_sem_None (dia mes : Z) (esc : list nat) (st : Estado) (v : Valor)
    (codigo : Z) :
  truthy_opt truthy_lista
    (cache_lookup w (chave_da_rota w (RotaData dia mes)) st) = false →
  (data w dia mes esc st).1 = Ok (jsonify (Resultados v) codigo) →
  Forall is_Some v.
Proof.
  intros Hmiss Hv. pose proof (view_busca (RotaData dia mes) esc st Hmiss) as Hb.
  change (view w (RotaData dia mes) esc st) with (data w dia mes esc st) in Hb.
  destruct (buscar_url w _ st) as [[html|e] st1].
  - destruct (saints_list (BeautifulSoup w html)) as [urls|].
    + destruct Hb as (outs & _ & Hb). rewrite Hb in Hv. simpl in Hv.
      injection Hv as <- _. apply filter_None_Forall.
    + rewrite Hb in Hv. simpl in Hv. injection Hv as <- _.
      destruct (extrair_info_santo _); simpl; repeat constructor. by eexists.
  - rewrite Hb in Hv. simpl in Hv. discriminate Hv.
Qed.

End Propriedades.

(** ** A stored answer is repeated *)

Lemma cache_lookup_guardar_depois (w w' : Mundo) (chave : string) (v : Valor)
    (st : Estado) :
  time_now w' < time_now w + CACHE_DEFAULT_TIMEOUT →
  cache_lookup w' chave (guardar w chave v st) = Some v.
Proof.
  intros Hlt. unfold cache_lookup, guardar. simpl. rewrite lookup_insert_eq.
  rewrite (proj2 (Z.ltb_lt _ _) Hlt). by rewrite orb_true_r.
Qed.

Lemma chave_da_rota_mesma_data (w w' : Mundo) (r : Rota) :
  md5 w' = md5 w → datetime_now w' = datetime_now w →
  chave_da_rota w' r = chave_da_rota w r.
Proof.
  intros Hm Hd. destruct r; simpl; by apply criar_chave_cache_mesma_data.
Qed.

(** X2.  A data route does not answer from the store and answers with a
    non-empty list of results.  Then a later request to the same route, on
    the same calendar date and less than 86400 seconds after the first, on
    the state the first one left, gets the same answer from the store,
    whatever the origin serves by then, and leaves the state as it is:
    nothing is fetched. *)
Theorem resposta_repetida (w w' : Mundo) (r : Rota) (esc esc' : list nat)
    (st : Estado) (x : option Santo) (v : Valor) :
  truthy_opt truthy_lista (cache_lookup w (chave_da_rota w r) st) = false →
  (view w r esc st).1 = Ok (jsonify (Resultados (x :: v)) 200) →
  md5 w' = md5 w →
  datetime_now w' = datetime_now w →
  time_now w' < time_now w + CACHE_DEFAULT_TIMEOUT →
  view w' r esc' (view w r esc st).2
  = (Ok (jsonify (Resultados (x :: v)) 200), (view w r esc st).2).
Proof.
  intros Hm Hv Hmd5 Hdata Hlt. pose proof (view_busca w r esc st Hm) as Hb.
  destruct (buscar_url w (url_da_rota r) st) as [[html|e] st1].
  - destruct (saints_list (BeautifulSoup w html)) as [urls|].
    + destruct Hb as (outs & _ & Hb). rewrite Hb in Hv |- *. simpl in *.
      injection Hv as Hv. rewrite Hv. apply view_hit.
      rewrite (chave_da_rota_mesma_data w w') by done.
      rewrite <- Hv. by apply cache_lookup_guardar_depois.
    + rewrite Hb in Hv |- *. simpl in *.
      injection Hv as Hv. rewrite Hv. apply view_hit.
      rewrite (chave_da_rota_mesma_data w w') by done.
      rewrite <- Hv. by apply cache_lookup_guardar_depois.
  - rewrite Hb in Hv. simpl in Hv. discriminate Hv.
Qed.

(** X3.  An iteration of the daily job fetches the page of one of the two
    routes it warms and ends with a value [v].  Then [v] is stored under
    the key the route reads on that calendar date, and is read back less
    than 86400 seconds later; if [v] is not empty, a request to that route
    on that date and within that time, on the state the iteration left, is
    answered with [v] from the store, the state unchanged. *)
Theorem pre_carregar_aquece_a_rota (w w' : Mundo) (r : Rota) (esc : list nat)
    (santos : option Valor) (st : Estado) (html : string) (v : Valor) :
  rota_do_dia w r →
  (buscar_url w (url_da_rota r) st).1 = Ok html →
  (pre_carregar w (datetime_now w) (url_da_rota r) esc santos st).1
  = Ok (Some v) →
  md5 w' = md5 w →
  datetime_now w' = datetime_now w →
  time_now w' < time_now w + CACHE_DEFAULT_TIMEOUT →
  let st' := (pre_carregar w (datetime_now w) (url_da_rota r) esc santos st).2 in
  cache_lookup w' (chave_da_rota w' r) st' = Some v
  ∧ (v ≠ [] →
     ∀ esc', view w' r esc' st' = (Ok (jsonify (Resultados v) 200), st')).
Proof.
  intros Hr Hb Hpre Hmd5 Hdata Hlt st'.
  assert (Hc : cache_lookup w' (chave_da_rota w' r) st' = Some v).
  { unfold st'. clear st'. rewrite (chave_da_rota_mesma_data w w') by done.
    pose proof (pre_carregar_casos w (datetime_now w) (url_da_rota r) esc
                  santos st) as Hcasos.
    rewrite (chave_do_job_da_rota w r Hr) in Hcasos.
    destruct (buscar_url w (url_da_rota r) st) as [ro st1].
    simpl in Hb. subst ro.
    destruct (saints_list (BeautifulSoup w html)) as [urls|].
    - destruct Hcasos as (outs & _ & Heq). rewrite Heq in Hpre |- *.
      simpl in *. injection Hpre as <-. by apply cache_lookup_guardar_depois.
    - destruct (if truthy_opt truthy_santo _ then _ else santos) as [v'|];
        rewrite Hcasos in Hpre |- *; simpl in *; [|done].
      injection Hpre as <-. by apply cache_lookup_guardar_depois. }
  split; [done|]. intros Hv esc'. destruct v as [|x v]; [done|].
  by apply view_hit.
Qed.

Lemma buscar_url_envelhece (w : Mundo) url v c n st :
  v ≠ url → (n < maxsize)%nat →
  memo_get url (take n (memo st)) = Some c →
  memo_get url (take (S n) (memo (buscar_url w v st).2)) = Some c.
Proof.
  intros Hne Hn H. unfold buscar_url. cbn [memo com_chamada].
  destruct (memo_get v (memo st)) as [c'|].
  - cbn [snd memo com_memo]. unfold memo_hit.
    rewrite firstn_cons. cbn [memo_get]. rewrite decide_False by done.
    by apply memo_get_take_sem.
  - destruct (sessao_get w v) as [c'|e]; cbn [snd memo com_memo com_pedido].
    + unfold memo_put. rewrite take_take.
      replace (S n `min` maxsize)%nat with (S n) by lia.
      rewrite firstn_cons. cbn [memo_get]. rewrite decide_False by done.
      by apply memo_get_take_sem.
    + by apply (memo_get_take_mono _ _ n); [|lia].
Qed.

Lemma buscar_varias_envelhece (w : Mundo) url c urls n st :
  Forall (λ v, v ≠ url) urls → (n + length urls ≤ maxsize)%nat →
  memo_get url (take n (memo st)) = Some c →
  memo_get url (take (n + length urls) (memo (buscar_varias w urls st))) = Some c.
Proof.
  intros Hall. revert n st. induction Hall as [|v urls Hv _ IH]; intros n st Hn H.
  - simpl. by rewrite Nat.add_0_r.
  - simpl in *. replace (n + S (length urls))%nat with (S n + length urls)%nat by lia.
    apply IH; [lia|]. apply buscar_url_envelhece; [done|lia|done].
Qed.

(** X6.  A body that [buscar_url] returned is returned again for the same
    address, without any request to the origin and whatever the origin
    would answer by then, as long as fewer than 128 calls for other
    addresses came in between. *)
Theorem buscar_url_memoriza (w w' : Mundo) (url c : string)
    (urls : list string) (st : Estado) :
  (buscar_url w url st).1 = Ok c →
  Forall (λ v, v ≠ url) urls →
  (length urls < maxsize)%nat →
  let st1 := buscar_varias w' urls (buscar_url w url st).2 in
  (buscar_url w' url st1).1 = Ok c
  ∧ pedidos (buscar_url w' url st1).2 = pedidos st1.
Proof.
  intros Hc Hall Hlen st1.
  assert (Hm : memo_get url (memo st1) = Some c).
  { apply (memo_get_take _ (1 + length urls)%nat).
    apply buscar_varias_envelhece; [done|lia|]. by apply buscar_url_recente. }
  unfold buscar_url. cbn [memo com_chamada]. by rewrite Hm.
Qed.

(** X7.  A failed fetch is not memoised: the memo is left as it was, and the
    next call for the same address sends a new request to the origin. *)
Theorem buscar_url_falha_nao_memoriza (w w' : Mundo) (url : string)
    (e : Excecao) (st : Estado) :
  (buscar_url w url st).1 = Raise e →
  let st1 := (buscar_url w url st).2 in
  memo st1 = memo st
  ∧ pedidos st1 = (pedidos st ++ [url])%list
  ∧ pedidos (buscar_url w' url st1).2 = (pedidos st ++ [url; url])%list.
Proof.
  unfold buscar_url. cbn [memo com_chamada].
  destruct (memo_get url (memo st)) as [c|] eqn:Hm; [done|].
  destruct (sessao_get w url) as [c|e']; [done|]. intros _.
  cbn [snd memo com_pedido pedidos com_chamada]. rewrite Hm.
  split; [done|]. split; [done|].
  destruct (sessao_get w' url); simpl; by rewrite <- app_assoc.
Qed.

(** * The statements on concrete pages and origins *)

Import Cenario.

(** C1, counterexample.  A page with three paragraphs whose first one is
    blank: a record is extracted and its reflection is empty, although the
    page has not fewer than three paragraphs. *)
Lemma pagina_branca_reflexao_vazia :
  ∃ ps s,
    wg_text pagina_branca = Some ps
    ∧ length ps = 3%nat
    ∧ extrair_info_santo pagina_branca = Some s
    ∧ reflexao s = ""
    ∧ ¬ (reflexao s = "" ↔ (length ps < 3)%nat).
Proof.
  eexists _, _. split; [reflexivity|]. split; [reflexivity|].
  split; [reflexivity|]. split; [reflexivity|].
  intros [H _]. specialize (H eq_refl). simpl in H. lia.
Qed.

(** C1: the amended statement on the page with a blank first paragraph. *)
Lemma extrair_info_santo_posicional_witness :
  ∃ r, extrair_info_santo pagina_branca = Some r
    ∧ historia r = secao (take (3 - 4) ["   "; "Ora et labora."; "Amem."])
    ∧ Z.of_nat (length (take (3 - 4) ["   "; "Ora et labora."; "Amem."]))
      = Z.max (Z.of_nat 3 - 4) 0
    ∧ (reflexao r = "" ↔
         (3 < 3)%nat
         ∨ ∃ p, ["   "; "Ora et labora."; "Amem."] !! (3 - 3)%nat = Some p
                ∧ PyStr.strip p = "")
    ∧ (oracao r = "" ↔
         3%nat = 0%nat
         ∨ ∃ p, ["   "; "Ora et labora."; "Amem."] !! (3 - 1)%nat = Some p
                ∧ PyStr.strip p = "")
    ∧ (Forall nao_vazio ["   "; "Ora et labora."; "Amem."] →
         (reflexao r = "" ↔ (3 < 3)%nat) ∧ (oracao r = "" ↔ 3%nat = 0%nat)).
Proof.
  apply (extrair_info_santo_posicional pagina_branca "Sao Bento"
           (Some "https://www.a12.com/img/santo.jpg")
           ["   "; "Ora et labora."; "Amem."]); reflexivity.
Defined.

(** C2, counterexample.  Scenario A as the spec gives it: the default route
    returns three records, and the reflection of each is the fourth
    paragraph of its page, not the third. *)
Lemma cenario_A_reflexao_e_o_paragrafo_4 :
  saints_list (BeautifulSoup mundo_A "<indice>") = Some urls_A
  ∧ Forall (λ u, pagina_de_santo mundo_A u seis) urls_A
  ∧ Forall nao_vazio seis
  ∧ length seis = 6%nat
  ∧ (inicio mundo_A [] estado_inicial).1
    = Ok (jsonify (Resultados (Some <$> santos_A)) 200)
  ∧ length santos_A = 3%nat
  ∧ Forall (λ s, Some (reflexao s) ≠ PyStr.strip <$> seis !! 2%nat
                 ∧ Some (reflexao s) = PyStr.strip <$> seis !! 3%nat) santos_A.
Proof.
  split; [reflexivity|]. split.
  { repeat constructor.
    - by exists "<santo 1>", "Santa Ines", (Some "https://www.a12.com/img/santo.jpg").
    - by exists "<santo 2>", "Sao Tarcisio", (Some "https://www.a12.com/img/santo.jpg").
    - by exists "<santo 3>", "Santa Luzia", (Some "https://www.a12.com/img/santo.jpg"). }
  split; [by repeat constructor|]. split; [reflexivity|].
  split; [by vm_compute|]. split; [reflexivity|].
  by repeat constructor.
Qed.

(** C2: the amended statement at scenario A. *)
Lemma cenario_A_seis_paragrafos_witness :
  ∃ santos st',
    view mundo_A RotaInicio [] estado_inicial
    = (Ok (jsonify (Resultados (Some <$> santos)) 200), st')
    ∧ length santos = 3%nat
    ∧ Forall2 (λ u s, ∃ p1 p2 p3 p4 p5 p6,
                 (λ _ : string, seis) u = [p1; p2; p3; p4; p5; p6]
                 ∧ historia s
                   = PyStr.strip p1 +:+ PyStr.blank_line +:+ PyStr.strip p2
                 ∧ reflexao s = PyStr.strip p4
                 ∧ oracao s = PyStr.strip p6)
              urls_A santos.
Proof.
  apply (cenario_A_seis_paragrafos mundo_A RotaInicio [] estado_inicial
           "<indice>" urls_A (λ _, seis)); try reflexivity.
  intros u Hu. split; [intros c Hc; discriminate Hc|].
  split; [|split; [reflexivity|by repeat constructor]].
  apply list_elem_of_In in Hu. simpl in Hu.
  destruct Hu as [<-|[<-|[<-|[]]]].
  - by exists "<santo 1>", "Santa Ines", (Some "https://www.a12.com/img/santo.jpg").
  - by exists "<santo 2>", "Sao Tarcisio", (Some "https://www.a12.com/img/santo.jpg").
  - by exists "<santo 3>", "Santa Luzia", (Some "https://www.a12.com/img/santo.jpg").
Defined.

(** C3 at scenario D: the second of three links fails, the workers finish
    out of order, and the two surviving records come in the order of their
    links. *)
Lemma fan_out_ordem_dos_links_witness :
  ∃ outs feitos st2,
    view mundo_D (RotaData 1 11) [2; 1]%nat estado_inicial
    = (Ok (jsonify (Resultados (filter_None outs)) 200),
       guardar mundo_D (chave_da_rota mundo_D (RotaData 1 11))
         (filter_None outs) st2)
    ∧ corrida mundo_D urls_A
        (buscar_url mundo_D (url_da_rota (RotaData 1 11)) estado_inicial).2
        feitos st2
    ∧ feitos.*1 ≡ₚ seq 0 (length urls_A)
    ∧ length outs = length urls_A
    ∧ (∀ i o, outs !! i = Some o ↔ (i, o) ∈ feitos)
    ∧ filter_None outs `sublist_of` outs
    ∧ length (filter_None outs) = (length urls_A - falhas outs)%nat
    ∧ ((∀ u, u ∈ urls_A → memo_fiel mundo_D u estado_inicial) →
       outs = filho mundo_D <$> urls_A).
Proof.
  apply (fan_out_ordem_dos_links mundo_D (RotaData 1 11) [2; 1]%nat
           estado_inicial "<indice>" urls_A); reflexivity.
Defined.

(** Scenario D evaluated: two records, those of the first and third link. *)
Lemma cenario_D :
  (data mundo_D 1 11 [2; 1]%nat estado_inicial).1
  = Ok (jsonify (Resultados [Some (santo_de "Santa Ines");
                             Some (santo_de "Santa Luzia")]) 200)
  ∧ chamadas (data mundo_D 1 11 [2; 1]%nat estado_inicial).2
    = [url_data 1 11; "/santo/3"; "/santo/2"; "/santo/1"].
Proof. by vm_compute. Qed.

(** C5, counterexample.  The store holds the empty list, unexpired, under
    the key of the default route; the request does not return the stored
    value and calls the page fetcher four times. *)
Lemma entrada_vazia_busca_de_novo :
  let st := com_entrada mundo_A RotaInicio [] in
  cache st !! chave_da_rota mundo_A RotaInicio
  = Some (time_now mundo_A + 3600, [])
  ∧ time_now mundo_A < time_now mundo_A + 3600
  ∧ (requisicao (inicio mundo_A []) st).1
    = Ok (apos_requisicao (jsonify (Resultados (Some <$> santos_A)) 200))
  ∧ chamadas st = []
  ∧ chamadas (requisicao (inicio mundo_A []) st).2
    = [url_inicio; "/santo/1"; "/santo/2"; "/santo/3"].
Proof. by vm_compute. Qed.

(** C5: the amended statement on a store holding one record. *)
Lemma cache_hit_nao_busca_witness :
  let st := com_entrada mundo_A RotaInicio [Some (santo_de "Santa Ines")] in
  ∃ resposta,
    requisicao (view mundo_A RotaInicio []) st = (Ok resposta, st)
    ∧ corpo resposta = Resultados [Some (santo_de "Santa Ines")]
    ∧ status resposta = 200
    ∧ chamadas (requisicao (view mundo_A RotaInicio []) st).2 = chamadas st
    ∧ pedidos (requisicao (view mundo_A RotaInicio []) st).2 = pedidos st.
Proof.
  apply (cache_hit_nao_busca mundo_A RotaInicio []
           (com_entrada mundo_A RotaInicio [Some (santo_de "Santa Ines")])
           (time_now mundo_A + 3600) (Some (santo_de "Santa Ines")) []).
  - by vm_compute.
  - right. by vm_compute.
Defined.

(** C10 on a store holding the empty list under the key of the default
    route: the index is fetched and its three links resolved. *)
Lemma lista_vazia_nao_e_hit_witness :
  let st := com_entrada mundo_A RotaInicio [] in
  (∃ outs feitos st2,
     corrida mundo_A urls_A (buscar_url mundo_A url_inicio st).2 feitos st2
     ∧ feitos.*1 ≡ₚ seq 0 (length urls_A)
     ∧ length outs = length urls_A
     ∧ (∀ i o, outs !! i = Some o ↔ (i, o) ∈ feitos)
     ∧ view mundo_A RotaInicio [] st
       = (Ok (jsonify (Resultados (filter_None outs)) 200),
          guardar mundo_A (chave_da_rota mundo_A RotaInicio)
            (filter_None outs) st2))
  ∧ (view mundo_A RotaInicio [] st).1
    = (view mundo_A RotaInicio []
         (com_cache (delete (chave_da_rota mundo_A RotaInicio) (cache st)) st)).1.
Proof.
  exact (lista_vazia_nao_e_hit mundo_A RotaInicio []
           (com_entrada mundo_A RotaInicio []) (time_now mundo_A + 3600)
           eq_refl).
Defined.

(** C7 on an origin that cannot be reached. *)
Lemma falha_da_busca_principal_witness :
  ∃ resposta st',
    requisicao (view mundo_fora_do_ar (RotaData 1 11) []) estado_inicial
    = (Ok resposta, st')
    ∧ corpo resposta
      = Erro (str_exc (RequestException "404 Client Error: Not Found"))
    ∧ status resposta = 500
    ∧ cache st' = cache estado_inicial.
Proof.
  apply (falha_da_busca_principal mundo_fora_do_ar (RotaData 1 11) []
           estado_inicial (RequestException "404 Client Error: Not Found"));
    reflexivity.
Defined.

(** C6, the failing input.  The page has no list of saints and nothing can
    be extracted from it: the day/month route answers with the empty list,
    the default route with a list holding [None], and stores it. *)
Theorem inicio_sem_santo_devolve_lista_com_None :
  saints_list (BeautifulSoup mundo_sem_santo "<nada>") = None
  ∧ extrair_info_santo (BeautifulSoup mundo_sem_santo "<nada>") = None
  ∧ (requisicao (data mundo_sem_santo 1 11 []) estado_inicial).1
    = Ok (apos_requisicao (jsonify (Resultados []) 200))
  ∧ (requisicao (inicio mundo_sem_santo []) estado_inicial).1
    = Ok (apos_requisicao (jsonify (Resultados [None]) 200))
  ∧ cache_lookup mundo_sem_santo (chave_da_rota mundo_sem_santo RotaInicio)
      (requisicao (inicio mundo_sem_santo []) estado_inicial).2
    = Some [None].
Proof. by vm_compute. Qed.

(** C9, the failing input.  The store holds a record, unexpired, under the
    key of the default route: the request is answered from the store, no
    page is fetched, and the header says [MISS]. *)
Theorem hit_com_cabecalho_MISS :
  let st := com_entrada mundo_A RotaInicio [Some (santo_de "Santa Ines")] in
  ∃ resposta,
    requisicao (inicio mundo_A []) st = (Ok resposta, st)
    ∧ corpo resposta = Resultados [Some (santo_de "Santa Ines")]
    ∧ x_status_cache resposta = Some "MISS".
Proof.
  eexists. split; [|split].
  - unfold requisicao, mbind, M_bind, mret, M_ret.
    replace (inicio mundo_A [] _) with
      (Ok (jsonify (Resultados [Some (santo_de "Santa Ines")]) 200),
       com_entrada mundo_A RotaInicio [Some (santo_de "Santa Ines")]).
    + reflexivity.
    + symmetry. apply (view_hit mundo_A RotaInicio). by vm_compute.
  - reflexivity.
  - reflexivity.
Qed.


(** * The further properties on concrete pages and origins *)

(** X2 on scenario A: the second request comes an hour later, when the
    origin cannot be reached. *)
Lemma resposta_repetida_witness :
  view (mundo_depois 3600 mundo_A mundo_fora_do_ar) RotaInicio [1]%nat
    (view mundo_A RotaInicio [] estado_inicial).2
  = (Ok (jsonify (Resultados (Some <$> santos_A)) 200),
     (view mundo_A RotaInicio [] estado_inicial).2).
Proof.
  apply (resposta_repetida mundo_A (mundo_depois 3600 mundo_A mundo_fora_do_ar)
           RotaInicio [] [1]%nat estado_inicial
           (Some (santo_de "Santa Ines"))
           [Some (santo_de "Sao Tarcisio"); Some (santo_de "Santa Luzia")]).
  - reflexivity.
  - by vm_compute.
  - reflexivity.
  - reflexivity.
  - by vm_compute.
Defined.

(** X3 on scenario D, for the route of 1 November, read an hour later. *)
Lemma pre_carregar_aquece_a_rota_witness :
  let v := [Some (santo_de "Santa Ines"); Some (santo_de "Santa Luzia")] in
  let w' := mundo_depois 3600 mundo_D mundo_fora_do_ar in
  let st' := (pre_carregar mundo_D (datetime_now mundo_D)
                (url_da_rota (RotaData 1 11)) [] None estado_inicial).2 in
  cache_lookup w' (chave_da_rota w' (RotaData 1 11)) st' = Some v
  ∧ (v ≠ [] →
     ∀ esc', view w' (RotaData 1 11) esc' st'
             = (Ok (jsonify (Resultados v) 200), st')).
Proof.
  apply (pre_carregar_aquece_a_rota mundo_D
           (mundo_depois 3600 mundo_D mundo_fora_do_ar) (RotaData 1 11) [] None
           estado_inicial "<indice>").
  - by right.
  - by vm_compute.
  - by vm_compute.
  - reflexivity.
  - reflexivity.
  - by vm_compute.
Defined.

(** X4 on the initial state. *)
Lemma requisicao_memo_ok_witness :
  memo_ok (requisicao (view mundo_A RotaInicio []) estado_inicial).2.
Proof.
  apply (requisicao_memo_ok mundo_A RotaInicio [] estado_inicial).
  split; [constructor|simpl; lia].
Defined.

(** X6: the index fetched while the origin answers is served again after
    the origin has gone and two other addresses were asked for. *)
Lemma buscar_url_memoriza_witness :
  let st1 := buscar_varias mundo_fora_do_ar ["/santo/1"; "/santo/2"]
               (buscar_url mundo_A url_inicio estado_inicial).2 in
  (buscar_url mundo_fora_do_ar url_inicio st1).1 = Ok "<indice>"
  ∧ pedidos (buscar_url mundo_fora_do_ar url_inicio st1).2 = pedidos st1.
Proof.
  apply (buscar_url_memoriza mundo_A mundo_fora_do_ar url_inicio "<indice>"
           ["/santo/1"; "/santo/2"] estado_inicial).
  - reflexivity.
  - by repeat constructor.
  - simpl. unfold maxsize. lia.
Defined.

(** X7: a fetch that failed is tried again once the origin answers. *)
Lemma buscar_url_falha_nao_memoriza_witness :
  let st1 := (buscar_url mundo_fora_do_ar url_inicio estado_inicial).2 in
  memo st1 = memo estado_inicial
  ∧ pedidos st1 = (pedidos estado_inicial ++ [url_inicio])%list
  ∧ pedidos (buscar_url mundo_A url_inicio st1).2
    = (pedidos estado_inicial ++ [url_inicio; url_inicio])%list.
Proof.
  apply (buscar_url_falha_nao_memoriza mundo_fora_do_ar mundo_A url_inicio
           (RequestException "404 Client Error: Not Found") estado_inicial).
  reflexivity.
Defined.

(** X8: the page of 1 November is empty and gets the saints of the default
    page. *)
Lemma limpar_e_atualizar_cache_reusa_santos_witness :
  cache_lookup mundo_E (chave_da_rota mundo_E (RotaData 1 11))
    (limpar_e_atualizar_cache mundo_E (λ _, []) estado_inicial).2
  = Some (filter_None (filho mundo_E <$> urls_A)).
Proof.
  apply (limpar_e_atualizar_cache_reusa_santos mundo_E (λ _, []) estado_inicial
           "<indice>" "<nada>" urls_A); reflexivity.
Defined.

(** X9 on the origin without saints. *)
Lemma limpar_e_atualizar_cache_sem_santos_witness :
  (limpar_e_atualizar_cache mundo_sem_santo (λ _, []) estado_inicial).1 = Ok ()
  ∧ cache (limpar_e_atualizar_cache mundo_sem_santo (λ _, []) estado_inicial).2
    = ∅.
Proof.
  apply (limpar_e_atualizar_cache_sem_santos mundo_sem_santo (λ _, [])
           estado_inicial "<nada>" "<nada>"); reflexivity.
Defined.

(** X10 on scenario D, the workers finishing out of order. *)
Lemma fan_out_busca_cada_link_uma_vez_witness :
  ∃ us,
    chamadas (view mundo_D (RotaData 1 11) [2; 1]%nat estado_inicial).2
    = (chamadas estado_inicial ++ url_da_rota (RotaData 1 11) :: us)%list
    ∧ us ≡ₚ urls_A.
Proof.
  apply (fan_out_busca_cada_link_uma_vez mundo_D (RotaData 1 11) [2; 1]%nat
           estado_inicial "<indice>" urls_A); reflexivity.
Defined.

(** X11 on scenario D. *)
Lemma data_sem_None_witness :
  Forall is_Some [Some (santo_de "Santa Ines"); Some (santo_de "Santa Luzia")].
Proof.
  apply (data_sem_None mundo_D 1 11 [] estado_inicial _ 200).
  - reflexivity.
  - by vm_compute.
Defined.

(** X12: [f(dia=1, mes=11)] and [f(mes=11, dia=1)]. *)
Lemma criar_chave_cache_ordem_dos_kwargs_witness :
  criar_chave_cache mundo_A [AStr "data"] [("dia", AInt 1); ("mes", AInt 11)]
  = criar_chave_cache mundo_A [AStr "data"] [("mes", AInt 11); ("dia", AInt 1)].
Proof.
  apply (criar_chave_cache_ordem_dos_kwargs mundo_A [AStr "data"]
           [("dia", AInt 1); ("mes", AInt 11)]
           [("mes", AInt 11); ("dia", AInt 1)]).
  - apply (bool_decide_unpack _). by vm_compute.
  - apply Permutation_swap.
Defined.

(** X13: the two headings of the six paragraphs replaced. *)
Lemma extrair_info_santo_ignora_dois_blocos_witness :
  extrair_info_santo (com_paragrafos seis_sem_titulos (pagina_santo "Santa Ines" seis))
  = extrair_info_santo (com_paragrafos seis (pagina_santo "Santa Ines" seis)).
Proof.
  apply (extrair_info_santo_ignora_dois_blocos (pagina_santo "Santa Ines" seis)
           seis seis_sem_titulos).
  - reflexivity.
  - intros [|[|[|[|[|[|i]]]]]] H4 H2; try reflexivity; simpl in H4, H2; lia.
Defined.

(** X16 on 1 and 2 November 2024. *)
Lemma string_chave_muda_com_a_data_witness :
  string_chave {| year := 2024; month := 11; day := 1 |} [AStr "inicio"] []
  ≠ string_chave {| year := 2024; month := 11; day := 2 |} [AStr "inicio"] [].
Proof.
  apply (string_chave_muda_com_a_data
           {| year := 2024; month := 11; day := 1 |}
           {| year := 2024; month := 11; day := 2 |} [AStr "inicio"] []).
  - unfold data_valida. simpl. lia.
  - unfold data_valida. simpl. lia.
  - discriminate.
Defined.
